(** * Restaurant Web API: query validation, repository and response mapping

  A shallow embedding of the Express router (routes/restaurants.js), of the
  repository module (modules/db.js) and of the Mongoose schema
  (models/Restaurant.js), with the properties of the specification stated
  and proved over it. *)

From Stdlib Require Import ZArith NArith QArith Qcanon List String Ascii Bool Lia.
From stdpp Require Import base numbers option list sorting gmap.

Set Warnings "-register-all".
Local Open Scope string_scope.
Local Open Scope list_scope.
Local Open Scope Z_scope.

(** ** JavaScript strings

  A JavaScript string is a sequence of UTF-16 code units; [.length] counts
  code units.  String literals of the source are written [lit "..."]. *)

Definition jsstring := list N.

Definition lit (s : string) : jsstring :=
  map N_of_ascii (list_ascii_of_string s).

Module Js.

Fixpoint eqb (a b : jsstring) : bool :=
  match a, b with
  | [], [] => true
  | x :: a', y :: b' => N.eqb x y && eqb a' b'
  | _, _ => false
  end.

(** [startsWith s p]: [p] is a prefix of [s]. *)
Fixpoint startsWith (s p : jsstring) {struct p} : bool :=
  match p, s with
  | [], _ => true
  | x :: p', y :: s' => N.eqb x y && startsWith s' p'
  | _ :: _, [] => false
  end.

(** [includes s p] is [s.includes(p)]: case-sensitive substring search. *)
Fixpoint includes (s p : jsstring) : bool :=
  startsWith s p ||
  match s with
  | [] => false
  | _ :: s' => includes s' p
  end.

(** [join sep l] is [l.join(sep)]. *)
Fixpoint join (sep : jsstring) (l : list jsstring) : jsstring :=
  match l with
  | [] => []
  | [x] => x
  | x :: rest => x ++ sep ++ join sep rest
  end.

(** Character classes of ECMAScript regular expressions (no [u] flag). *)
Definition is_digit (c : N) : bool := (48 <=? c)%N && (c <=? 57)%N.
Definition is_upper (c : N) : bool := (65 <=? c)%N && (c <=? 90)%N.
Definition is_lower (c : N) : bool := (97 <=? c)%N && (c <=? 122)%N.
Definition is_alpha (c : N) : bool := is_upper c || is_lower c.
Definition is_word (c : N) : bool := is_alpha c || is_digit c || N.eqb c 95.
Definition is_hex (c : N) : bool :=
  is_digit c || ((97 <=? c)%N && (c <=? 102)%N) || ((65 <=? c)%N && (c <=? 70)%N).
Definition is_line_terminator (c : N) : bool :=
  N.eqb c 10 || N.eqb c 13 || N.eqb c 8232 || N.eqb c 8233.
(** [\s], which is also the set that [trim] strips: WhiteSpace and
    LineTerminator. *)
Definition is_space (c : N) : bool :=
  ((9 <=? c)%N && (c <=? 13)%N) || N.eqb c 32 || N.eqb c 160 || N.eqb c 5760
  || ((8192 <=? c)%N && (c <=? 8202)%N) || N.eqb c 8232 || N.eqb c 8233
  || N.eqb c 8239 || N.eqb c 8287 || N.eqb c 12288 || N.eqb c 65279.
Definition is_char (k : N) (c : N) : bool := N.eqb c k.
(** [.] without the [s] flag. *)
Definition is_dot (c : N) : bool := negb (is_line_terminator c).

Fixpoint trimStart (s : jsstring) : jsstring :=
  match s with
  | c :: s' => if is_space c then trimStart s' else s
  | [] => []
  end.
Definition trimEnd (s : jsstring) : jsstring := rev (trimStart (rev s)).
Definition trim (s : jsstring) : jsstring := trimEnd (trimStart s).

(** [toLowerCase], on the ASCII letters; other code units are kept. *)
Definition lower (c : N) : N := if is_upper c then (c + 32)%N else c.
Definition toLowerCase (s : jsstring) : jsstring := map lower s.

(** Numbers.  The handlers only produce integers and [NaN]; an integer is
    kept exact (comparisons with the bounds 1, 100 and 10000 agree with
    those of the rounded double, rounding being monotone). *)
Inductive num := NaN | Num (z : Z).

Definition lt (a b : num) : bool :=
  match a, b with Num x, Num y => x <? y | _, _ => false end.
Definition gt (a b : num) : bool := lt b a.
Definition strict_eq (a b : num) : bool :=
  match a, b with Num x, Num y => x =? y | _, _ => false end.
(** [a || d] on numbers: [a] unless it is falsy (0 or NaN). *)
Definition or_default (a : num) (d : num) : num :=
  match a with
  | NaN => d
  | Num z => if z =? 0 then d else a
  end.

Fixpoint digits (acc : Z) (s : jsstring) : Z :=
  match s with
  | c :: s' => if is_digit c then digits (10 * acc + Z.of_N (c - 48)) s' else acc
  | [] => acc
  end.

(** [parseInt10 s] is [parseInt(s, 10)]: leading white space, an optional
    sign, then the longest run of decimal digits; [NaN] when there is
    none. *)
Definition parseInt10 (s : jsstring) : num :=
  let body (t : jsstring) (sign : Z) :=
    match t with
    | c :: _ => if is_digit c then Num (sign * digits 0 t) else NaN
    | [] => NaN
    end in
  match trimStart s with
  | c :: t =>
      if N.eqb c 45 then body t (-1)
      else if N.eqb c 43 then body t 1
      else body (c :: t) 1
  | [] => NaN
  end.

(** Decimal rendering of an integer, as [String(n)] and template literals
    produce it. *)
Fixpoint pos_digits (fuel : nat) (n : N) (acc : jsstring) : jsstring :=
  match fuel with
  | O => acc
  | S k =>
      let acc' := (48 + n mod 10)%N :: acc in
      if (n <? 10)%N then acc' else pos_digits k (n / 10)%N acc'
  end.
Definition of_Z (z : Z) : jsstring :=
  let n := Z.to_N (Z.abs z) in
  let d := pos_digits (S (N.to_nat (N.log2 n))) n [] in
  if z <? 0 then 45%N :: d else d.

End Js.

(** ** Regular expressions

  The patterns of the source have no back-references or look-around, so
  [re.test(s)] for an anchored pattern [^r$] is membership of [s] in the
  language of [r]; it is decided by Brzozowski derivatives. *)

Inductive regex : Type :=
| Void
| Eps
| Cls (p : N -> bool)
| Cat (r1 r2 : regex)
| Alt (r1 r2 : regex)
| Star (r : regex).

Module Re.

Definition Plus (r : regex) : regex := Cat r (Star r).
Definition Opt (r : regex) : regex := Alt r Eps.
Fixpoint Rep (n : nat) (r : regex) : regex :=
  match n with
  | O => Eps
  | S k => Cat r (Rep k r)
  end.
Definition Chr (a : ascii) : regex := Cls (Js.is_char (N_of_ascii a)).
Fixpoint Lit (s : string) : regex :=
  match s with
  | EmptyString => Eps
  | String a s' => Cat (Chr a) (Lit s')
  end.

Fixpoint nullable (r : regex) : bool :=
  match r with
  | Void => false
  | Eps => true
  | Cls _ => false
  | Cat r1 r2 => nullable r1 && nullable r2
  | Alt r1 r2 => nullable r1 || nullable r2
  | Star _ => true
  end.

Fixpoint deriv (c : N) (r : regex) : regex :=
  match r with
  | Void => Void
  | Eps => Void
  | Cls p => if p c then Eps else Void
  | Cat r1 r2 =>
      if nullable r1 then Alt (Cat (deriv c r1) r2) (deriv c r2)
      else Cat (deriv c r1) r2
  | Alt r1 r2 => Alt (deriv c r1) (deriv c r2)
  | Star r1 => Cat (deriv c r1) (Star r1)
  end.

(** [test r s] is [/^r$/.test(s)]. *)
Fixpoint test (r : regex) (s : jsstring) : bool :=
  match s with
  | [] => nullable r
  | c :: s' => test (deriv c r) s'
  end.

(** [test_prefix r s] is [/^r/.test(s)]: some prefix of [s] is in [r]. *)
Definition test_prefix (r : regex) (s : jsstring) : bool :=
  test (Cat r (Star (Cls (fun _ => true)))) s.

End Re.

(** ** Request and response data *)

(** A value of [req.query], as the query-string parser builds it: a string,
    an array ([?a=1&a=2], [?a[]=1]) or a nested object ([?a[b]=1]). *)
Inductive qval : Type :=
| QStr (s : jsstring)
| QArr (l : list qval)
| QObj (fields : list (jsstring * qval)).

(** [req.query]: its own properties in [Object.keys] order. *)
Definition query := list (jsstring * qval).

(** [String(v)], the coercion that [RegExp.prototype.test] and [parseInt]
    apply to their argument. *)
Fixpoint toString (v : qval) : jsstring :=
  match v with
  | QStr s => s
  | QArr l => Js.join (lit ",") (map toString l)
  | QObj _ => lit "[object Object]"
  end.

(** [q[k]]; [None] is [undefined]. *)
Definition prop (k : string) (q : query) : option qval :=
  match List.find (fun kv => Js.eqb (fst kv) (lit k)) q with
  | Some kv => Some (snd kv)
  | None => None
  end.

(** The keys of the rest object of [const { n1, n2, ..., ...rest } = q]. *)
Definition rest_keys (names : list string) (q : query) : list jsstring :=
  map fst
    (List.filter
       (fun kv => negb (existsb (fun n => Js.eqb (fst kv) (lit n)) names)) q).

(** *** The restaurant entity (models/Restaurant.js) *)

Record address : Type := {
  street : jsstring;
  city : jsstring;
  state : jsstring;
  zipCode : jsstring;
  address_borough : option jsstring
}.

Record hours : Type := {
  monday : jsstring;
  tuesday : jsstring;
  wednesday : jsstring;
  thursday : jsstring;
  friday : jsstring;
  saturday : jsstring;
  sunday : jsstring
}.

(** A stored document.  The timestamps, which the driver maintains, are not
    part of the model. *)
Record restaurant : Type := {
  name : jsstring;
  addr : address;
  borough : option jsstring;
  cuisine : jsstring;
  phone : jsstring;
  email : jsstring;
  website : option jsstring;
  rating : Qc;
  priceRange : jsstring;
  hrs : hours;
  isActive : bool
}.

(** A stored entity with its [_id]; an ObjectId is the number its 24
    hexadecimal digits denote. *)
Definition entity : Type := N * restaurant.

(** A request body (or the [data] argument of the repository): a JSON object
    whose schema fields, when present, have the schema's types.  [None] is an
    absent field; [b_other] lists the keys that are not schema paths (strict
    mode drops them). *)
Record address_in : Type := {
  in_street : option jsstring;
  in_city : option jsstring;
  in_state : option jsstring;
  in_zipCode : option jsstring;
  in_borough : option jsstring
}.

Record hours_in : Type := {
  in_monday : option jsstring;
  in_tuesday : option jsstring;
  in_wednesday : option jsstring;
  in_thursday : option jsstring;
  in_friday : option jsstring;
  in_saturday : option jsstring;
  in_sunday : option jsstring
}.

Record body : Type := {
  b_name : option jsstring;
  b_address : option address_in;
  b_borough : option jsstring;
  b_cuisine : option jsstring;
  b_phone : option jsstring;
  b_email : option jsstring;
  b_website : option jsstring;
  b_rating : option Qc;
  b_priceRange : option jsstring;
  b_hours : option hours_in;
  b_isActive : option bool;
  b_other : list jsstring
}.

Definition key_if {A} (k : string) (o : option A) : list jsstring :=
  match o with Some _ => [lit k] | None => [] end.

(** [Object.keys(body)]. *)
Definition body_keys (b : body) : list jsstring :=
  key_if "name" (b_name b) ++ key_if "address" (b_address b)
  ++ key_if "borough" (b_borough b) ++ key_if "cuisine" (b_cuisine b)
  ++ key_if "phone" (b_phone b) ++ key_if "email" (b_email b)
  ++ key_if "website" (b_website b) ++ key_if "rating" (b_rating b)
  ++ key_if "priceRange" (b_priceRange b) ++ key_if "hours" (b_hours b)
  ++ key_if "isActive" (b_isActive b) ++ b_other b.

(** *** JavaScript errors *)

Record error : Type := {
  e_name : jsstring;
  e_message : jsstring;
  e_code : option N;
  (** [error.errors] of a Mongoose ValidationError: path and message. *)
  e_errors : list (string * jsstring)
}.

(** [new Error(msg)]. *)
Definition Error (msg : jsstring) : error :=
  {| e_name := lit "Error"; e_message := msg; e_code := None; e_errors := [] |}.

(** *** Responses *)

Inductive json : Type :=
| JNull
| JBool (b : bool)
| JNum (n : Js.num)
| JStr (s : jsstring)
| JArr (l : list json)
| JObj (fields : list (string * json))
| JDoc (d : entity).

(** An object literal as [res.json] serialises it: a property whose value is
    [undefined] ([None]) is left out. *)
Fixpoint jobject (fields : list (string * option json)) : list (string * json) :=
  match fields with
  | [] => []
  | (k, Some v) :: rest => (k, v) :: jobject rest
  | (_, None) :: rest => jobject rest
  end.

(** [o.k] of a serialised object; [None] when the key is absent. *)
Fixpoint field (k : string) (fields : list (string * json)) : option json :=
  match fields with
  | [] => None
  | (k', v) :: rest => if String.eqb k k' then Some v else field k rest
  end.

Definition jfield (k : string) (j : json) : option json :=
  match j with
  | JObj fields => field k fields
  | _ => None
  end.

Record response : Type := {
  status : Z;
  (** [None]: an empty body ([res.send()]). *)
  payload : option json
}.

(** [res.status(code).json({ success: false, message: msg })]. *)
Definition failure (code : Z) (msg : jsstring) : response :=
  {| status := code;
     payload := Some (JObj (jobject
       [("success", Some (JBool false)); ("message", Some (JStr msg))])) |}.

(** The process environment. *)
Record env : Type := {
  (** [process.env.NODE_ENV === 'development'] *)
  development : bool;
  (** The storage engine's regular-expression search with option [i]:
      [regex_i pattern subject]. *)
  regex_i : jsstring -> jsstring -> bool
}.

(** [res.status(500).json({ success: false, message: msg,
      error: development ? error.message : undefined })]. *)
Definition server_error (E : env) (msg : jsstring) (e : error) : response :=
  {| status := 500;
     payload := Some (JObj (jobject
       [("success", Some (JBool false)); ("message", Some (JStr msg));
        ("error", if development E then Some (JStr (e_message e)) else None)])) |}.

(** ** The world: the collection and the instrumentation *)

Inductive call : Type :=
| Call_addNewRestaurant (data : option body)
| Call_getAllRestaurants (page perPage : Js.num) (borough : option jsstring)
| Call_getRestaurantById (Id : jsstring)
| Call_updateRestaurantById (data : option body) (Id : jsstring)
| Call_deleteRestaurantById (Id : jsstring).

Record world : Type := {
  (** the collection, keyed by [_id] *)
  store : gmap N restaurant;
  (** the ObjectId the driver assigns to the next inserted document *)
  next_oid : N;
  (** [Some e]: the storage engine is failing, and every driver round trip
      throws [e] *)
  fault : option error;
  (** ghost state: the repository calls made so far, latest first *)
  calls : list call
}.

Inductive outcome (A : Type) : Type :=
| Return (a : A)
| Throw (e : error).
Arguments Return {A} a.
Arguments Throw {A} e.

(** Computations over the world that return or throw. *)
Definition M (A : Type) : Type := world -> outcome A * world.

Definition ret {A} (a : A) : M A := fun w => (Return a, w).
Definition throw {A} (e : error) : M A := fun w => (Throw e, w).
Definition bind {A B} (m : M A) (k : A -> M B) : M B :=
  fun w =>
    match m w with
    | (Return a, w') => k a w'
    | (Throw e, w') => (Throw e, w')
    end.
(** [try { m } catch (error) { h error }]. *)
Definition try_catch {A} (m : M A) (h : error -> M A) : M A :=
  fun w =>
    match m w with
    | (Return a, w') => (Return a, w')
    | (Throw e, w') => h e w'
    end.

Notation "'let*' x ':=' m 'in' k" := (bind m (fun x => k))
  (at level 10, x name, m at level 200, k at level 200).

Definition get_world : M world := fun w => (Return w, w).
Definition set_store (s : gmap N restaurant) : M unit :=
  fun w => (Return tt,
            {| store := s; next_oid := next_oid w; fault := fault w; calls := calls w |}).
Definition bump_oid : M unit :=
  fun w => (Return tt,
            {| store := store w; next_oid := N.succ (next_oid w);
               fault := fault w; calls := calls w |}).
Definition log (c : call) : M unit :=
  fun w => (Return tt,
            {| store := store w; next_oid := next_oid w; fault := fault w;
               calls := c :: calls w |}).
(** A round trip to the storage engine. *)
Definition round_trip : M unit :=
  fun w => match fault w with
           | Some e => (Throw e, w)
           | None => (Return tt, w)
           end.

(** ** The Mongoose schema (models/Restaurant.js) *)

Module Schema.

(** The validators a string path declares; [required] runs first, and the
    others do not run on an absent value. *)
Inductive validator : Type :=
| required (msg : string)
| maxLength (n : nat) (msg : string)
| enum (values : list string)
| matches (re : jsstring -> bool) (msg : string).

Record string_path : Type := {
  path : string;
  trim : bool;
  lowercase : bool;
  validators : list validator
}.

(** The setters of a path, applied when the document is built. *)
Definition set (p : string_path) (v : option jsstring) : option jsstring :=
  match v with
  | Some s =>
      let s1 := if trim p then Js.trim s else s in
      Some (if lowercase p then Js.toLowerCase s1 else s1)
  | None => None
  end.

(** One validator on one value: [Some msg] when it fails. *)
Definition check (pth : string) (v : validator) (value : option jsstring)
  : option jsstring :=
  match v, value with
  | required msg, None => Some (lit msg)
  | required msg, Some [] => Some (lit msg)
  | required _, Some (_ :: _) => None
  | _, None => None
  | maxLength n msg, Some s =>
      if (n <? length s)%nat then Some (lit msg) else None
  | enum values, Some s =>
      if existsb (fun x => Js.eqb s (lit x)) values then None
      else Some ([96%N] ++ s ++ lit "` is not a valid enum value for path `"
                 ++ lit pth ++ lit "`.")
  | matches re msg, Some [] => None
  | matches re msg, Some s => if re s then None else Some (lit msg)
  end.

(** The validators of a path run in order and the first failure is the
    path's error. *)
Fixpoint first_error (pth : string) (vs : list validator) (value : option jsstring)
  : option jsstring :=
  match vs with
  | [] => None
  | v :: rest =>
      match check pth v value with
      | Some msg => Some msg
      | None => first_error pth rest value
      end
  end.

Definition validate_path (p : string_path) (value : option jsstring)
  : list (string * jsstring) :=
  match first_error (path p) (validators p) value with
  | Some msg => [(path p, msg)]
  | None => []
  end.

Definition Seq (rs : list regex) : regex := fold_right Cat Eps rs.
Definition digit : regex := Cls Js.is_digit.
Definition word : regex := Cls Js.is_word.

(** [/^\(\d{3}\)\s\d{3}-\d{4}$/] *)
Definition phone_re : regex :=
  Seq [Re.Chr "("; Re.Rep 3 digit; Re.Chr ")"; Cls Js.is_space;
       Re.Rep 3 digit; Re.Chr "-"; Re.Rep 4 digit].

(** [/^\w+([.-]?\w+)*@\w+([.-]?\w+)*(\.\w{2,3})+$/] *)
Definition email_re : regex :=
  let dot_dash := Cls (fun c => Js.is_char 46 c || Js.is_char 45 c) in
  let tail := Star (Seq [Re.Opt dot_dash; Re.Plus word]) in
  Seq [Re.Plus word; tail; Re.Chr "@"; Re.Plus word; tail;
       Re.Plus (Seq [Re.Chr "."; Re.Rep 2 word; Re.Opt word])].

(** [/^https?:\/\/.+/] *)
Definition website_re : regex :=
  Seq [Re.Lit "http"; Re.Opt (Re.Chr "s"); Re.Lit "://"; Re.Plus (Cls Js.is_dot)].

Definition cuisines : list string :=
  ["Italian"; "Chinese"; "Mexican"; "Indian"; "American"; "French";
   "Japanese"; "Thai"; "Mediterranean"; "Other"].
Definition priceRanges : list string := ["$"; "$$"; "$$$"; "$$$$"].

Definition p_name : string_path :=
  {| path := "name"; trim := true; lowercase := false;
     validators := [required "Restaurant name is required";
                    maxLength 100 "Restaurant name cannot exceed 100 characters"] |}.
Definition p_street : string_path :=
  {| path := "address.street"; trim := true; lowercase := false;
     validators := [required "Street address is required"] |}.
Definition p_city : string_path :=
  {| path := "address.city"; trim := true; lowercase := false;
     validators := [required "City is required"] |}.
Definition p_state : string_path :=
  {| path := "address.state"; trim := true; lowercase := false;
     validators := [required "State is required"] |}.
Definition p_zipCode : string_path :=
  {| path := "address.zipCode"; trim := true; lowercase := false;
     validators := [required "Zip code is required"] |}.
Definition p_address_borough : string_path :=
  {| path := "address.borough"; trim := true; lowercase := false; validators := [] |}.
Definition p_borough : string_path :=
  {| path := "borough"; trim := true; lowercase := false; validators := [] |}.
Definition p_cuisine : string_path :=
  {| path := "cuisine"; trim := true; lowercase := false;
     validators := [required "Cuisine type is required"; enum cuisines] |}.
Definition p_phone : string_path :=
  {| path := "phone"; trim := true; lowercase := false;
     validators := [required "Phone number is required";
                    matches (Re.test phone_re)
                      "Phone number must be in format (XXX) XXX-XXXX"] |}.
Definition p_email : string_path :=
  {| path := "email"; trim := true; lowercase := true;
     validators := [required "Email is required";
                    matches (Re.test email_re) "Please enter a valid email"] |}.
Definition p_website : string_path :=
  {| path := "website"; trim := true; lowercase := false;
     validators := [matches (Re.test_prefix website_re)
                      "Website must be a valid URL starting with http:// or https://"] |}.
Definition p_priceRange : string_path :=
  {| path := "priceRange"; trim := false; lowercase := false;
     validators := [enum priceRanges] |}.

(** [rating]: [min: 1], [max: 5]. *)
Definition validate_rating (r : Qc) : list (string * jsstring) :=
  if negb (Qle_bool 1 r) then [("rating", lit "Rating must be at least 1")]
  else if negb (Qle_bool r 5) then [("rating", lit "Rating cannot exceed 5")]
  else [].

Definition address_of (b : body) : address_in :=
  match b_address b with
  | Some a => a
  | None => {| in_street := None; in_city := None; in_state := None;
               in_zipCode := None; in_borough := None |}
  end.

(** [new Restaurant(data)]: the setters are applied to the schema paths and
    the other keys are dropped. *)
Definition cast (b : body) : body :=
  let a := address_of b in
  {| b_name := set p_name (b_name b);
     b_address := Some {| in_street := set p_street (in_street a);
                          in_city := set p_city (in_city a);
                          in_state := set p_state (in_state a);
                          in_zipCode := set p_zipCode (in_zipCode a);
                          in_borough := set p_address_borough (in_borough a) |};
     b_borough := set p_borough (b_borough b);
     b_cuisine := set p_cuisine (b_cuisine b);
     b_phone := set p_phone (b_phone b);
     b_email := set p_email (b_email b);
     b_website := set p_website (b_website b);
     b_rating := b_rating b;
     b_priceRange := b_priceRange b;
     b_hours := b_hours b;
     b_isActive := b_isActive b;
     b_other := [] |}.

Definition default {A} (d : A) (o : option A) : A :=
  match o with Some x => x | None => d end.

(** The field-level rules, in the order of the schema: the errors of a
    document, one per violated path. *)
Definition validate (d : body) : list (string * jsstring) :=
  let a := address_of d in
  validate_path p_name (b_name d)
  ++ validate_path p_street (in_street a)
  ++ validate_path p_city (in_city a)
  ++ validate_path p_state (in_state a)
  ++ validate_path p_zipCode (in_zipCode a)
  ++ validate_path p_address_borough (in_borough a)
  ++ validate_path p_borough (b_borough d)
  ++ validate_path p_cuisine (b_cuisine d)
  ++ validate_path p_phone (b_phone d)
  ++ validate_path p_email (b_email d)
  ++ validate_path p_website (b_website d)
  ++ validate_rating (default 1%Qc (b_rating d))
  ++ validate_path p_priceRange (Some (default (lit "$$") (b_priceRange d))).

Definition day (get : hours_in -> option jsstring) (d : body) : jsstring :=
  match b_hours d with
  | Some h => default (lit "Closed") (get h)
  | None => lit "Closed"
  end.

(** The document that is stored, with the defaults of the schema. *)
Definition build (d : body) : restaurant :=
  let a := address_of d in
  {| name := default [] (b_name d);
     addr := {| street := default [] (in_street a);
                city := default [] (in_city a);
                state := default [] (in_state a);
                zipCode := default [] (in_zipCode a);
                address_borough := in_borough a |};
     borough := b_borough d;
     cuisine := default [] (b_cuisine d);
     phone := default [] (b_phone d);
     email := default [] (b_email d);
     website := b_website d;
     rating := default 1%Qc (b_rating d);
     priceRange := default (lit "$$") (b_priceRange d);
     hrs := {| monday := day in_monday d; tuesday := day in_tuesday d;
               wednesday := day in_wednesday d; thursday := day in_thursday d;
               friday := day in_friday d; saturday := day in_saturday d;
               sunday := day in_sunday d |};
     isActive := default true (b_isActive d) |}.

End Schema.

(** ** The Mongoose model [Restaurant] over the collection *)

Module Restaurant.

(** [/^[0-9a-fA-F]{24}$/], the textual form of an ObjectId. *)
Definition oid_re : regex := Re.Rep 24 (Cls Js.is_hex).

Definition hex_digit (c : N) : N :=
  if Js.is_digit c then (c - 48)%N
  else if (97 <=? c)%N then (c - 87)%N
  else (c - 55)%N.
Definition hex_value (s : jsstring) : N :=
  fold_left (fun acc c => (16 * acc + hex_digit c)%N) s 0%N.

(** The cast of a key to an ObjectId; [None] is a CastError. *)
Definition cast_oid (Id : jsstring) : option N :=
  if Re.test oid_re Id then Some (hex_value Id) else None.

Definition cast_error (Id : jsstring) : error :=
  {| e_name := lit "CastError";
     e_message := lit "Cast to ObjectId failed for value " ++ [34%N] ++ Id
                  ++ [34%N] ++ lit " (type string) at path " ++ [34%N]
                  ++ lit "_id" ++ [34%N] ++ lit " for model " ++ [34%N]
                  ++ lit "Restaurant" ++ [34%N];
     e_code := None; e_errors := [] |}.

Definition validation_error (errs : list (string * jsstring)) : error :=
  {| e_name := lit "ValidationError";
     e_message := lit "Restaurant validation failed: "
                  ++ Js.join (lit ", ")
                       (map (fun pm => lit (fst pm) ++ lit ": " ++ snd pm) errs);
     e_code := None; e_errors := errs |}.

Definition duplicate_key_error : error :=
  {| e_name := lit "MongoServerError";
     e_message := lit "E11000 duplicate key error collection: restaurant index: _id_";
     e_code := Some 11000%N; e_errors := [] |}.

(** [new Restaurant(data).save()]: the document is validated, then
    inserted under the next ObjectId. *)
Definition save (data : body) : M entity :=
  let doc := Schema.cast data in
  match Schema.validate doc with
  | (_ :: _) as errs => throw (validation_error errs)
  | [] =>
      let* _ := round_trip in
      let* w := get_world in
      let id := next_oid w in
      match store w !! id with
      | Some _ => throw duplicate_key_error
      | None =>
          let* _ := set_store (<[id := Schema.build doc]> (store w)) in
          let* _ := bump_oid in
          ret (id, Schema.build doc)
      end
  end.

(** The filter documents that the repository builds. *)
Inductive filter_doc : Type :=
| All
| Or_borough_regex_i (pattern : jsstring).

Definition field_regex (E : env) (pattern : jsstring) (v : option jsstring) : bool :=
  match v with
  | Some s => regex_i E pattern s
  | None => false
  end.

Definition selects (E : env) (f : filter_doc) (r : restaurant) : bool :=
  match f with
  | All => true
  | Or_borough_regex_i pattern =>
      field_regex E pattern (address_borough (addr r))
      || field_regex E pattern (borough r)
  end.

Definition id_le (a b : entity) : Prop := (fst a <= fst b)%N.
#[global] Instance id_le_dec : RelDecision id_le.
Proof. intros a b. unfold id_le. apply N.le_dec. Defined.

Definition count (n : Js.num) : nat :=
  match n with
  | Js.Num z => Z.to_nat z
  | Js.NaN => O
  end.

(** [Restaurant.find(f).sort({ _id: 1 }).skip(skip).limit(limit).lean()],
    for [limit >= 1] and [skip >= 0] (the repository guards both). *)
Definition find_sort_skip_limit (E : env) (f : filter_doc) (skip limit : Js.num)
  : M (list entity) :=
  let* _ := round_trip in
  let* w := get_world in
  ret (take (count limit)
         (drop (count skip)
            (merge_sort id_le
               (List.filter (fun e => selects E f (snd e)) (map_to_list (store w)))))).

(** [Restaurant.findById(Id)]; [None] is [null]. *)
Definition findById (Id : jsstring) : M (option entity) :=
  match cast_oid Id with
  | None => throw (cast_error Id)
  | Some id =>
      let* _ := round_trip in
      let* w := get_world in
      ret (match store w !! id with
           | Some r => Some (id, r)
           | None => None
           end)
  end.

(** [Restaurant.findByIdAndUpdate(Id, data,
      { new: true, runValidators: true, overwrite: true })]: the replacement
    document is validated as a whole and replaces the stored one. *)
Definition findByIdAndUpdate (Id : jsstring) (data : body) : M (option entity) :=
  match cast_oid Id with
  | None => throw (cast_error Id)
  | Some id =>
      let doc := Schema.cast data in
      match Schema.validate doc with
      | (_ :: _) as errs => throw (validation_error errs)
      | [] =>
          let* _ := round_trip in
          let* w := get_world in
          match store w !! id with
          | Some _ =>
              let* _ := set_store (<[id := Schema.build doc]> (store w)) in
              ret (Some (id, Schema.build doc))
          | None => ret None
          end
      end
  end.

(** [Restaurant.findByIdAndDelete(Id)]. *)
Definition findByIdAndDelete (Id : jsstring) : M (option entity) :=
  match cast_oid Id with
  | None => throw (cast_error Id)
  | Some id =>
      let* _ := round_trip in
      let* w := get_world in
      match store w !! id with
      | Some r =>
          let* _ := set_store (delete id (store w)) in
          ret (Some (id, r))
      | None => ret None
      end
  end.

End Restaurant.

(** ** The repository (modules/db.js) *)

Module db.

(** [parseInt(n)] of a number: the number is rendered, then parsed. *)
Definition parseInt_num (n : Js.num) : Js.num :=
  match n with
  | Js.NaN => Js.NaN
  | Js.Num z => Js.parseInt10 (Js.of_Z z)
  end.

Definition sub (a b : Js.num) : Js.num :=
  match a, b with Js.Num x, Js.Num y => Js.Num (x - y) | _, _ => Js.NaN end.
Definition mul (a b : Js.num) : Js.num :=
  match a, b with Js.Num x, Js.Num y => Js.Num (x * y) | _, _ => Js.NaN end.

Definition code_is (e : error) (c : N) : bool :=
  match e_code e with
  | Some c' => N.eqb c' c
  | None => false
  end.

Definition addNewRestaurant (data : option body) : M entity :=
  let* _ := log (Call_addNewRestaurant data) in
  try_catch
    (match data with
     | None => throw (Error (lit "Restaurant data is required"))
     | Some d =>
         let* savedRestaurant := Restaurant.save d in
         ret savedRestaurant
     end)
    (fun error =>
       if Js.eqb (e_name error) (lit "ValidationError") then
         let messages := map snd (e_errors error) in
         throw (Error (lit "Validation failed: " ++ Js.join (lit ", ") messages))
       else if code_is error 11000 then
         throw (Error (lit "Duplicate restaurant data detected"))
       else
         throw (Error (lit "Database error while adding restaurant: "
                       ++ e_message error))).

Definition getAllRestaurants (E : env) (page perPage : Js.num)
  (borough : option jsstring) : M (list entity) :=
  let* _ := log (Call_getAllRestaurants page perPage borough) in
  try_catch
    (let pageNum := Js.or_default (parseInt_num page) (Js.Num 1) in
     let limitNum := Js.or_default (parseInt_num perPage) (Js.Num 10) in
     if Js.lt pageNum (Js.Num 1) then
       throw (Error (lit "Page number must be greater than 0"))
     else if Js.lt limitNum (Js.Num 1) || Js.gt limitNum (Js.Num 100) then
       throw (Error (lit "Items per page must be between 1 and 100"))
     else
       let skip := mul (sub pageNum (Js.Num 1)) limitNum in
       let query :=
         match borough with
         | Some (c :: s) => Restaurant.Or_borough_regex_i (c :: s)
         | _ => Restaurant.All
         end in
       let* restaurants := Restaurant.find_sort_skip_limit E query skip limitNum in
       ret restaurants)
    (fun error =>
       throw (Error (lit "Database error while fetching restaurants: "
                     ++ e_message error))).

Definition getRestaurantById (Id : jsstring) : M entity :=
  let* _ := log (Call_getRestaurantById Id) in
  try_catch
    (match Id with
     | [] => throw (Error (lit "Restaurant ID is required"))
     | _ :: _ =>
         let* restaurant := Restaurant.findById Id in
         match restaurant with
         | None => throw (Error (lit "Restaurant not found"))
         | Some r => ret r
         end
     end)
    (fun error =>
       if Js.eqb (e_message error) (lit "Restaurant not found") then throw error
       else if Js.eqb (e_name error) (lit "CastError") then
         throw (Error (lit "Invalid restaurant ID format"))
       else
         throw (Error (lit "Database error while fetching restaurant: "
                       ++ e_message error))).

Definition updateRestaurantById (data : option body) (Id : jsstring) : M entity :=
  let* _ := log (Call_updateRestaurantById data Id) in
  try_catch
    (match data with
     | None => throw (Error (lit "Update data is required"))
     | Some d =>
         match Id with
         | [] => throw (Error (lit "Restaurant ID is required"))
         | _ :: _ =>
             let* updatedRestaurant := Restaurant.findByIdAndUpdate Id d in
             match updatedRestaurant with
             | None => throw (Error (lit "Restaurant not found"))
             | Some r => ret r
             end
         end
     end)
    (fun error =>
       if Js.eqb (e_message error) (lit "Restaurant not found") then throw error
       else if Js.eqb (e_name error) (lit "ValidationError") then
         let messages := map snd (e_errors error) in
         throw (Error (lit "Validation failed: " ++ Js.join (lit ", ") messages))
       else if Js.eqb (e_name error) (lit "CastError") then
         throw (Error (lit "Invalid restaurant ID format"))
       else
         throw (Error (lit "Database error while updating restaurant: "
                       ++ e_message error))).

Definition deleteRestaurantById (Id : jsstring) : M entity :=
  let* _ := log (Call_deleteRestaurantById Id) in
  try_catch
    (match Id with
     | [] => throw (Error (lit "Restaurant ID is required"))
     | _ :: _ =>
         let* deletedRestaurant := Restaurant.findByIdAndDelete Id in
         match deletedRestaurant with
         | None => throw (Error (lit "Restaurant not found"))
         | Some r => ret r
         end
     end)
    (fun error =>
       if Js.eqb (e_message error) (lit "Restaurant not found") then throw error
       else if Js.eqb (e_name error) (lit "CastError") then
         throw (Error (lit "Invalid restaurant ID format"))
       else
         throw (Error (lit "Database error while deleting restaurant: "
                       ++ e_message error))).

End db.

(** ** The router (routes/restaurants.js) *)

Module router.

Definition allowedParams : list string := ["page"; "perPage"; "borough"].

(** [/^\d+$/] *)
Definition digits_re : regex := Re.Plus (Cls Js.is_digit).

(** [/^[a-zA-Z\s\-']+$/] *)
Definition borough_char (c : N) : bool :=
  Js.is_lower c || Js.is_upper c || Js.is_space c || Js.is_char 45 c
  || Js.is_char 39 c.
Definition borough_re : regex := Re.Plus (Cls borough_char).

(** Step 1 of the list handler; [inl] is an early [return res...]. *)
Definition check_extra (q : query) : response + unit :=
  let extraParamKeys := rest_keys allowedParams q in
  if (0 <? length extraParamKeys)%nat then
    inl (failure 400
           (lit "Invalid query parameters: " ++ Js.join (lit ", ") extraParamKeys
            ++ lit ". Allowed parameters: "
            ++ Js.join (lit ", ") (map lit allowedParams)))
  else inr tt.

(** Step 2: [page]. *)
Definition check_page (page : option qval) : response + Js.num :=
  match page with
  | None => inr (Js.Num 1)
  | Some page =>
      if negb (Re.test digits_re (toString page)) then
        inl (failure 400 (lit "Page parameter must be a positive integer"))
      else
        let pageNum := Js.parseInt10 (toString page) in
        if Js.lt pageNum (Js.Num 1) then
          inl (failure 400 (lit "Page parameter must be greater than 0"))
        else if Js.gt pageNum (Js.Num 10000) then
          inl (failure 400 (lit "Page parameter cannot exceed 10000"))
        else inr pageNum
  end.

(** Step 3: [perPage]. *)
Definition check_perPage (perPage : option qval) : response + Js.num :=
  match perPage with
  | None => inr (Js.Num 10)
  | Some perPage =>
      if negb (Re.test digits_re (toString perPage)) then
        inl (failure 400 (lit "perPage parameter must be a positive integer"))
      else
        let perPageNum := Js.parseInt10 (toString perPage) in
        if Js.lt perPageNum (Js.Num 1) then
          inl (failure 400 (lit "perPage parameter must be greater than 0"))
        else if Js.gt perPageNum (Js.Num 100) then
          inl (failure 400 (lit "perPage parameter cannot exceed 100 items"))
        else inr perPageNum
  end.

(** Step 4: [borough]; [None] is [boroughFilter = null]. *)
Definition check_borough (borough : option qval) : response + option jsstring :=
  match borough with
  | None => inr None
  | Some (QStr borough) =>
      let trimmedBorough := Js.trim borough in
      if (length trimmedBorough =? 0)%nat then
        inl (failure 400 (lit "Borough parameter cannot be empty"))
      else if (50 <? length trimmedBorough)%nat then
        inl (failure 400 (lit "Borough parameter cannot exceed 50 characters"))
      else if negb (Re.test borough_re trimmedBorough) then
        inl (failure 400
               (lit "Borough parameter can only contain letters, spaces, hyphens, and apostrophes"))
      else inr (Some trimmedBorough)
  | Some _ => inl (failure 400 (lit "Borough parameter must be a string"))
  end.

(** [b ? x : y] on an optional string: [null] and the empty string are
    falsy. *)
Definition truthy (b : option jsstring) : bool :=
  match b with
  | Some (_ :: _) => true
  | _ => false
  end.

Definition jstring_or_null (b : option jsstring) : json :=
  match b with
  | Some s => JStr s
  | None => JNull
  end.

(** The 200 envelope of the list handler. *)
Definition list_envelope (restaurants : list entity) (pageNum perPageNum : Js.num)
  (boroughFilter : option jsstring) : response :=
  let totalReturned := Js.Num (Z.of_nat (length restaurants)) in
  let hasMore := Js.strict_eq totalReturned perPageNum in
  {| status := 200;
     payload := Some (JObj (jobject
       [("success", Some (JBool true));
        ("data", Some (JArr (map JDoc restaurants)));
        ("pagination", Some (JObj (jobject
           [("page", Some (JNum pageNum));
            ("perPage", Some (JNum perPageNum));
            ("totalReturned", Some (JNum totalReturned));
            ("hasMore", Some (JBool hasMore))])));
        ("filter", Some (if truthy boroughFilter
                         then JObj (jobject
                                [("borough", Some (jstring_or_null boroughFilter))])
                         else JNull));
        ("query", Some (JObj (jobject
           [("page", Some (JNum pageNum));
            ("perPage", Some (JNum perPageNum));
            ("borough", Some (jstring_or_null boroughFilter))])))])) |}.

(** [router.get('/')] *)
Definition get_all (E : env) (q : query) : M response :=
  try_catch
    (let page := prop "page" q in
     let perPage := prop "perPage" q in
     let borough := prop "borough" q in
     match check_extra q with
     | inl r => ret r
     | inr _ =>
     match check_page page with
     | inl r => ret r
     | inr pageNum =>
     match check_perPage perPage with
     | inl r => ret r
     | inr perPageNum =>
     match check_borough borough with
     | inl r => ret r
     | inr boroughFilter =>
         let* restaurants :=
           db.getAllRestaurants E pageNum perPageNum boroughFilter in
         ret (list_envelope restaurants pageNum perPageNum boroughFilter)
     end end end end)
    (fun error =>
       ret (server_error E (lit "Internal server error while fetching restaurants")
              error)).

Definition not_found (id : jsstring) : response :=
  failure 404 (lit "Restaurant with ID " ++ id ++ lit " not found").

Definition item_envelope (code : Z) (r : entity) (msg : option string) : response :=
  {| status := code;
     payload := Some (JObj (jobject
       [("success", Some (JBool true)); ("data", Some (JDoc r));
        ("message", match msg with
                    | Some m => Some (JStr (lit m))
                    | None => None
                    end)])) |}.

Definition message_includes (e : error) (s : string) : bool :=
  Js.includes (e_message e) (lit s).

(** [router.get('/:id')] *)
Definition get_one (E : env) (id : jsstring) : M response :=
  try_catch
    (if negb (Re.test Restaurant.oid_re id) then
       ret (failure 400 (lit "Invalid restaurant ID format"))
     else
       let* restaurant := db.getRestaurantById id in
       ret (item_envelope 200 restaurant None))
    (fun error =>
       if message_includes error "not found" then ret (not_found id)
       else
         ret (server_error E (lit "Internal server error while fetching restaurant")
                error)).

(** [!req.body || Object.keys(req.body).length === 0] *)
Definition body_missing (b : option body) : bool :=
  match b with
  | None => true
  | Some b => (length (body_keys b) =? 0)%nat
  end.

(** [router.post('/')] *)
Definition post_one (E : env) (b : option body) : M response :=
  try_catch
    (if body_missing b then
       ret (failure 400 (lit "Request body is required to create a restaurant"))
     else
       let* restaurant := db.addNewRestaurant b in
       ret (item_envelope 201 restaurant (Some "Restaurant created successfully")))
    (fun error =>
       if message_includes error "validation"
          || message_includes error "required"
          || message_includes error "duplicate"
          || Js.eqb (e_name error) (lit "ValidationError") then
         ret (failure 400 (lit "Validation error: " ++ e_message error))
       else if db.code_is error 11000 then
         ret (failure 400 (lit "Restaurant with this information already exists"))
       else
         ret (server_error E (lit "Internal server error while creating restaurant")
                error)).

(** [router.put('/:id')] *)
Definition put_one (E : env) (id : jsstring) (b : option body) : M response :=
  try_catch
    (if negb (Re.test Restaurant.oid_re id) then
       ret (failure 400 (lit "Invalid restaurant ID format"))
     else if body_missing b then
       ret (failure 400 (lit "Request body is required to update a restaurant"))
     else
       let* restaurant := db.updateRestaurantById b id in
       ret (item_envelope 200 restaurant (Some "Restaurant updated successfully")))
    (fun error =>
       if message_includes error "not found" then ret (not_found id)
       else if message_includes error "validation"
               || message_includes error "required"
               || Js.eqb (e_name error) (lit "ValidationError") then
         ret (failure 400 (lit "Validation error: " ++ e_message error))
       else
         ret (server_error E (lit "Internal server error while updating restaurant")
                error)).

(** [router.delete('/:id')] *)
Definition delete_one (E : env) (id : jsstring) : M response :=
  try_catch
    (if negb (Re.test Restaurant.oid_re id) then
       ret (failure 400 (lit "Invalid restaurant ID format"))
     else
       let* restaurant := db.deleteRestaurantById id in
       ret {| status := 204; payload := None |})
    (fun error =>
       if message_includes error "not found" then ret (not_found id)
       else
         ret (server_error E (lit "Internal server error while deleting restaurant")
                error)).

End router.

(** ** Notions used in the statements *)

(** Case-insensitive substring search: [s] contains [p] up to the case of
    the ASCII letters. *)
Definition caseless_includes (s p : jsstring) : bool :=
  Js.includes (Js.toLowerCase s) (Js.toLowerCase p).

(** The characters with a special meaning in a regular expression of the
    storage engine: [\ ^ $ . [ ] | ( ) ? * + { }]. *)
Definition is_meta (c : N) : bool :=
  existsb (N.eqb c) [92; 94; 36; 46; 91; 93; 124; 40; 41; 63; 42; 43; 123; 125]%N.




(** The world after a repository call has been recorded. *)
Definition logged (c : call) (w : world) : world :=
  {| store := store w; next_oid := next_oid w; fault := fault w;
     calls := c :: calls w |}.

(** The same request issued [n] times in a row. *)
Fixpoint repeat_request (h : M response) (n : nat) : M (list response) :=
  match n with
  | O => ret []
  | S k =>
      let* r := h in
      let* rs := repeat_request h k in
      ret (r :: rs)
  end.

(** [r.body.k] of a response. *)
Definition response_field (k : string) (r : response) : option json :=
  match payload r with
  | Some j => jfield k j
  | None => None
  end.

(** The tail of the list handler, once the parameters are validated. *)
Definition fetch_page (E : env) (pageNum perPageNum : Js.num)
  (boroughFilter : option jsstring) : M response :=
  try_catch
    (let* restaurants := db.getAllRestaurants E pageNum perPageNum boroughFilter in
     ret (router.list_envelope restaurants pageNum perPageNum boroughFilter))
    (fun error =>
       ret (server_error E (lit "Internal server error while fetching restaurants")
              error)).

(** A digit-only parameter whose value lies in [[lo, hi]]. *)
Definition digits_in_range (lo hi : Z) (v : qval) : Prop :=
  Re.test router.digits_re (toString v) = true /\
  exists n, Js.parseInt10 (toString v) = Js.Num n /\ lo <= n <= hi.

(** The [filter] field as the specification words it: the applied borough
    when a filter was used, no field at all otherwise. *)
Definition filter_as_specified (boroughFilter : option jsstring) (r : response)
  : Prop :=
  match boroughFilter with
  | Some s => response_field "filter" r = Some (JObj [("borough", JStr s)])
  | None => response_field "filter" r = None
  end.

(** *** Sample data *)

Module Sample.

Definition E : env :=
  {| development := false; regex_i := fun pattern s => caseless_includes s pattern |}.

Definition empty : world :=
  {| store := ∅; next_oid := 1%N; fault := None; calls := [] |}.

Definition id : jsstring := lit "507f1f77bcf86cd799439011".

Definition record : body :=
  {| b_name := Some (lit "Test Restaurant");
     b_address := Some {| in_street := Some (lit "123 Test St");
                          in_city := Some (lit "New York");
                          in_state := Some (lit "NY");
                          in_zipCode := Some (lit "10001");
                          in_borough := Some (lit "Manhattan") |};
     b_borough := Some (lit "Manhattan");
     b_cuisine := Some (lit "American");
     b_phone := Some (lit "(212) 555-0123");
     b_email := Some (lit "test@restaurant.com");
     b_website := None; b_rating := None; b_priceRange := None;
     b_hours := None; b_isActive := None; b_other := [] |}.

Definition with_phone (p : option jsstring) (b : body) : body :=
  {| b_name := b_name b; b_address := b_address b; b_borough := b_borough b;
     b_cuisine := b_cuisine b; b_phone := p; b_email := b_email b;
     b_website := b_website b; b_rating := b_rating b;
     b_priceRange := b_priceRange b; b_hours := b_hours b;
     b_isActive := b_isActive b; b_other := b_other b |}.

Definition with_name (n : option jsstring) (b : body) : body :=
  {| b_name := n; b_address := b_address b; b_borough := b_borough b;
     b_cuisine := b_cuisine b; b_phone := b_phone b; b_email := b_email b;
     b_website := b_website b; b_rating := b_rating b;
     b_priceRange := b_priceRange b; b_hours := b_hours b;
     b_isActive := b_isActive b; b_other := b_other b |}.

Definition with_cuisine (c : option jsstring) (b : body) : body :=
  {| b_name := b_name b; b_address := b_address b; b_borough := b_borough b;
     b_cuisine := c; b_phone := b_phone b; b_email := b_email b;
     b_website := b_website b; b_rating := b_rating b;
     b_priceRange := b_priceRange b; b_hours := b_hours b;
     b_isActive := b_isActive b; b_other := b_other b |}.

(** A record that is valid but for its phone number. *)
Definition bad_phone : body := with_phone (Some (lit "555-0123")) record.

(** A record without a name and with a malformed phone number. *)
Definition no_name_bad_phone : body := with_name None bad_phone.

(** A record whose cuisine is not in the enumeration. *)
Definition klingon : body := with_cuisine (Some (lit "Klingon")) record.

Definition empty_body : body :=
  {| b_name := None; b_address := None; b_borough := None; b_cuisine := None;
     b_phone := None; b_email := None; b_website := None; b_rating := None;
     b_priceRange := None; b_hours := None; b_isActive := None; b_other := [] |}.

(** A collection that holds one restaurant under [Sample.id]. *)
Definition one : world :=
  {| store := {[ Restaurant.hex_value id := Schema.build (Schema.cast record) ]};
     next_oid := 1%N; fault := None; calls := [] |}.

(** The same collection while the storage engine cannot be reached. *)
Definition outage : world :=
  {| store := store one; next_oid := 1%N;
     fault := Some {| e_name := lit "MongoNetworkError";
                      e_message := lit "getaddrinfo ENOTFOUND: host not found";
                      e_code := None; e_errors := [] |};
     calls := [] |}.

End Sample.

(** ** The browse form (views/browseRoutes.js) *)

Module browse.

(** The fields of the submitted form that the handler reads; [None] is
    [undefined].  A field is a string, or an array or object when the form
    repeats or nests the name (a body posted as JSON, whose fields may be
    numbers, is outside the model). *)
Record form : Type := {
  f_page : option qval;
  f_perPage : option qval;
  f_borough : option qval
}.

(** [form: ...] of the rendered view: the fields as submitted, or the
    normalized ones. *)
Inductive form_echo : Type :=
| Submitted (f : form)
| Normalized (page perPage : Js.num) (borough : jsstring).

Record result : Type := {
  rows : list entity;
  totalReturned : Js.num;
  res_page : Js.num;
  res_perPage : Js.num;
  hasMore : bool;
  res_borough : option jsstring
}.

(** [res.status(code).render('browse/index', { title, form, result, error })] *)
Record view : Type := {
  v_status : Z;
  v_form : form_echo;
  v_result : option result;
  v_error : option jsstring
}.

(** [parseInt(x, 10)] of a form field; [undefined] reads "undefined". *)
Definition parseField (x : option qval) : Js.num :=
  match x with
  | Some v => Js.parseInt10 (toString v)
  | None => Js.NaN
  end.

(** [Number.isInteger(n)] *)
Definition isInteger (n : Js.num) : bool :=
  match n with
  | Js.Num _ => true
  | Js.NaN => false
  end.

(** [/^[a-zA-Z\s\-']*$/] *)
Definition allowedBoroughRegex : regex := Star (Cls router.borough_char).

Definition page_errors (pageNum : Js.num) : list jsstring :=
  if negb (isInteger pageNum) || Js.lt pageNum (Js.Num 1)
     || Js.gt pageNum (Js.Num 10000)
  then [lit "Page must be a positive integer between 1 and 10000"]
  else [].

Definition perPage_errors (perPageNum : Js.num) : list jsstring :=
  if negb (isInteger perPageNum) || Js.lt perPageNum (Js.Num 1)
     || Js.gt perPageNum (Js.Num 100)
  then [lit "Per Page must be a positive integer between 1 and 100"]
  else [].

(** The borough of the form: the errors it adds and the filter it sets. *)
Definition borough_check (borough : option qval) : list jsstring * option jsstring :=
  match borough with
  | Some (QStr borough) =>
      if (0 <? length (Js.trim borough))%nat then
        if (50 <? length (Js.trim borough))%nat
           || negb (Re.test allowedBoroughRegex (Js.trim borough))
        then ([lit "Borough may only contain letters, spaces, hyphens, apostrophes and be at most 50 chars"],
              None)
        else ([], Some (Js.trim borough))
      else ([], None)
  | _ => ([], None)
  end.

(** [boroughFilter || ''] *)
Definition or_empty (b : option jsstring) : jsstring :=
  match b with
  | Some s => s
  | None => []
  end.

(** [router.post('/')] of the browse form. *)
Definition post (E : env) (f : form) : M view :=
  try_catch
    (let pageNum := parseField (f_page f) in
     let perPageNum := parseField (f_perPage f) in
     let errors :=
       page_errors pageNum ++ perPage_errors perPageNum
       ++ fst (borough_check (f_borough f)) in
     let boroughFilter := snd (borough_check (f_borough f)) in
     if (0 <? length errors)%nat then
       ret {| v_status := 400; v_form := Submitted f; v_result := None;
              v_error := Some (Js.join (lit ". ") errors) |}
     else
       let* restaurants := db.getAllRestaurants E pageNum perPageNum boroughFilter in
       ret {| v_status := 200;
              v_form := Normalized pageNum perPageNum (or_empty boroughFilter);
              v_result := Some {| rows := restaurants;
                                  totalReturned := Js.Num (Z.of_nat (length restaurants));
                                  res_page := pageNum;
                                  res_perPage := perPageNum;
                                  hasMore := Js.strict_eq
                                               (Js.Num (Z.of_nat (length restaurants)))
                                               perPageNum;
                                  res_borough := boroughFilter |};
              v_error := None |})
    (fun err =>
       ret {| v_status := 500; v_form := Submitted f; v_result := None;
              v_error := Some (lit "Internal server error. Please try again later.") |}).

End browse.

(** ** The service module (services/restaurantService.js) *)

Module restaurantService.



Definition getRestaurantById (id : jsstring) : M entity :=
  try_catch
    (let* restaurant := Restaurant.findById id in
     match restaurant with
     | None => throw (Error (lit "Restaurant not found"))
     | Some r => ret r
     end)
    (fun error =>
       throw (Error (lit "Error fetching restaurant: " ++ e_message error))).


End restaurantService.

(** ** Further notions used in the statements *)



(** The arguments of a repository call are validated ones: page and perPage
    within their bounds, the filter absent or a non-empty pattern of at most
    50 whitelisted characters. *)
Definition validated_call (c : call) : Prop :=
  match c with
  | Call_getAllRestaurants (Js.Num p) (Js.Num m) b =>
      1 <= p <= 10000 /\ 1 <= m <= 100
      /\ match b with
         | Some s => s <> [] /\ (length s <= 50)%nat
                     /\ Forall (fun c => router.borough_char c = true) s
         | None => True
         end
  | Call_getAllRestaurants _ _ _ => False
  | _ => True
  end.

(** All the stored entities, by ascending [_id]. *)
Definition sorted_entities (w : world) : list entity :=
  merge_sort Restaurant.id_le (map_to_list (store w)).

(** The stored entities that a borough filter keeps, by ascending [_id]. *)
Definition matching_entities (E : env) (b : option jsstring) (w : world)
  : list entity :=
  merge_sort Restaurant.id_le
    (List.filter
       (fun e => Restaurant.selects E
                   match b with
                   | Some (c :: s) => Restaurant.Or_borough_regex_i (c :: s)
                   | _ => Restaurant.All
                   end (snd e))
       (map_to_list (store w))).

(** How the catch blocks of the repository rethrow an error of the
    driver. *)
Definition rethrown_by_add (e : error) : error :=
  if Js.eqb (e_name e) (lit "ValidationError") then
    Error (lit "Validation failed: " ++ Js.join (lit ", ") (map snd (e_errors e)))
  else if db.code_is e 11000 then Error (lit "Duplicate restaurant data detected")
  else Error (lit "Database error while adding restaurant: " ++ e_message e).

Definition rethrown_by_get (e : error) : error :=
  if Js.eqb (e_message e) (lit "Restaurant not found") then e
  else if Js.eqb (e_name e) (lit "CastError") then
    Error (lit "Invalid restaurant ID format")
  else Error (lit "Database error while fetching restaurant: " ++ e_message e).



(** The world after a write: the collection is replaced, the call is
    recorded, and the next ObjectId moves on by [used]. *)
Definition written (c : call) (s : gmap N restaurant) (used : N) (w : world)
  : world :=
  {| store := s; next_oid := (next_oid w + used)%N; fault := fault w;
     calls := c :: calls w |}.

(** A handler has answered, with one of the statuses [allowed]; the answer
    has a body unless the status is 204, and outside development mode it
    carries no [error] detail. *)
Definition answers (allowed : list Z) (E : env) (res : outcome response * world)
  : Prop :=
  match fst res with
  | Return r =>
      In (status r) allowed
      /\ (development E = false -> response_field "error" r = None)
      /\ (payload r = None <-> status r = 204)
  | Throw _ => False
  end.


Definition form_borough_ok (x : option qval) : Prop :=
  match x with
  | Some (QStr s) =>
      Js.trim s = []
      \/ ((length (Js.trim s) <= 50)%nat
          /\ Forall (fun c => router.borough_char c = true) (Js.trim s))
  | _ => True
  end.



(** * Properties *)

(** ** Strings *)

Section Strings.

Lemma eqb_refl (s : jsstring) : Js.eqb s s = true.
Proof.
  induction s as [|c s IH]; simpl; [reflexivity|].
  now rewrite N.eqb_refl, IH.
Qed.

Lemma eqb_eq (a b : jsstring) : Js.eqb a b = true <-> a = b.
Proof.
  split; [|intros ->; apply eqb_refl].
  revert b; induction a as [|x a IH]; intros [|y b]; simpl; try discriminate.
  - reflexivity.
  - rewrite andb_true_iff, N.eqb_eq. intros [-> H]. f_equal. now apply IH.
Qed.

Lemma eqb_neq (a b : jsstring) : Js.eqb a b = false <-> a <> b.
Proof.
  rewrite <- eqb_eq. destruct (Js.eqb a b); split; congruence.
Qed.

Lemma startsWith_self_app (p t : jsstring) : Js.startsWith (p ++ t) p = true.
Proof.
  induction p as [|c p IH]; simpl; [reflexivity|].
  now rewrite N.eqb_refl, IH.
Qed.

Lemma startsWith_app (s p t : jsstring) :
  Js.startsWith s p = true -> Js.startsWith (s ++ t) p = true.
Proof.
  revert s; induction p as [|c p IH]; intros [|d s]; simpl; try easy.
  rewrite !andb_true_iff. intros [H1 H2]. split; [assumption|now apply IH].
Qed.

Lemma includes_app_l (s p t : jsstring) :
  Js.includes s p = true -> Js.includes (s ++ t) p = true.
Proof.
  induction s as [|c s IH]; simpl.
  - rewrite orb_false_r. destruct p; [|discriminate].
    intros _. destruct t; reflexivity.
  - rewrite !orb_true_iff. intros [H|H].
    + left. now apply (startsWith_app (c :: s) p t).
    + right. now apply IH.
Qed.

Lemma includes_app_r (s p t : jsstring) :
  Js.includes s p = true -> Js.includes (t ++ s) p = true.
Proof.
  intros H. induction t as [|c t IH]; simpl; [assumption|].
  rewrite IH. apply orb_true_r.
Qed.

Lemma includes_self (p : jsstring) : Js.includes p p = true.
Proof.
  destruct p as [|c p]; [reflexivity|].
  cbn [Js.includes]. apply orb_true_iff. left.
  rewrite <- (app_nil_r (c :: p)) at 1. apply startsWith_self_app.
Qed.

(** A string occurs in whatever is built around it. *)
Lemma includes_middle (a k b : jsstring) : Js.includes (a ++ k ++ b) k = true.
Proof. apply includes_app_r, includes_app_l, includes_self. Qed.

Lemma includes_join (sep k : jsstring) (l : list jsstring) :
  In k l -> Js.includes (Js.join sep l) k = true.
Proof.
  induction l as [|x l IH]; [easy|].
  intros [->|H].
  - destruct l; simpl; [apply includes_self|apply includes_app_l, includes_self].
  - destruct l as [|y l]; [easy|].
    change (Js.join sep (x :: y :: l)) with (x ++ sep ++ Js.join sep (y :: l)).
    now apply includes_app_r, includes_app_r, IH.
Qed.

(** [includes] is the existence of an occurrence. *)
Lemma startsWith_spec (s p : jsstring) :
  Js.startsWith s p = true <-> exists t, s = p ++ t.
Proof.
  split.
  - revert s; induction p as [|c p IH]; intros s; simpl.
    + intros _. now exists s.
    + destruct s as [|d s]; [discriminate|].
      rewrite andb_true_iff, N.eqb_eq. intros [-> H].
      destruct (IH _ H) as [t ->]. now exists t.
  - intros [t ->]. apply startsWith_self_app.
Qed.

Lemma includes_spec (s p : jsstring) :
  Js.includes s p = true <-> exists a b, s = a ++ p ++ b.
Proof.
  split.
  - induction s as [|c s IH]; simpl.
    + rewrite orb_false_r. destruct p; [|discriminate].
      intros _. now exists [], [].
    + rewrite orb_true_iff. intros [H|H].
      * apply (startsWith_spec (c :: s) p) in H. destruct H as [t Ht].
        exists [], t. exact Ht.
      * destruct (IH H) as (a & b & ->). now exists (c :: a), b.
  - intros (a & b & ->). apply includes_middle.
Qed.

End Strings.

(** ** Character classes *)

Ltac bool_to_prop :=
  repeat match goal with
    | H : _ && _ = true |- _ => apply andb_true_iff in H; destruct H
    | H : _ || _ = true |- _ => apply orb_true_iff in H
    | H : _ || _ = false |- _ => apply orb_false_iff in H; destruct H
    | H : negb _ = true |- _ => apply negb_true_iff in H
    | H : negb _ = false |- _ => apply negb_false_iff in H
    | H : (_ <=? _)%N = true |- _ => apply N.leb_le in H
    | H : (_ <=? _)%N = false |- _ => apply N.leb_gt in H
    | H : (_ =? _)%N = true |- _ => apply N.eqb_eq in H
    | H : (_ =? _)%N = false |- _ => apply N.eqb_neq in H
    end.

(** [class_excludes H]: the class in the goal is false on a character that
    hypothesis [H] places in a disjoint class. *)
Ltac class_excludes H :=
  match goal with
  | |- ?b = false =>
      let X := fresh "X" in
      destruct b eqn:X; [exfalso|reflexivity];
      unfold router.borough_char, is_meta, Js.is_space, Js.is_digit, Js.is_lower,
        Js.is_upper, Js.is_alpha, Js.is_hex, Js.is_char, existsb in H, X;
      rewrite ?orb_false_r in X;
      bool_to_prop;
      repeat match goal with
        | D : _ \/ _ |- _ => destruct D; bool_to_prop
        end; lia
  end.

Section Classes.

Lemma digit_not_space (c : N) : Js.is_digit c = true -> Js.is_space c = false.
Proof. intros H. class_excludes H. Qed.

Lemma digit_not_sign (c : N) :
  Js.is_digit c = true -> N.eqb c 45 = false /\ N.eqb c 43 = false.
Proof.
  intros H. unfold Js.is_digit in H. bool_to_prop.
  split; apply N.eqb_neq; lia.
Qed.


End Classes.

(** ** Regular expressions *)

Section Regex.

Lemma test_Void (s : jsstring) : Re.test Void s = false.
Proof. induction s; simpl; auto. Qed.

Lemma test_Eps (s : jsstring) :
  Re.test Eps s = match s with [] => true | _ => false end.
Proof. destruct s; simpl; [reflexivity|apply test_Void]. Qed.

Lemma test_Alt (a b : regex) (s : jsstring) :
  Re.test (Alt a b) s = Re.test a s || Re.test b s.
Proof. revert a b; induction s as [|c s IH]; intros a b; simpl; auto. Qed.

Lemma test_Cat_Void (r : regex) (s : jsstring) : Re.test (Cat Void r) s = false.
Proof. induction s; simpl; auto. Qed.

Lemma test_Cat_Eps (r : regex) (s : jsstring) :
  Re.test (Cat Eps r) s = Re.test r s.
Proof.
  destruct s as [|c s]; simpl; [reflexivity|].
  now rewrite test_Alt, test_Cat_Void.
Qed.

(** A class followed by [r]: the first character is in the class and the
    rest matches [r]. *)
Lemma test_Cat_Cls (p : N -> bool) (r : regex) (s : jsstring) :
  Re.test (Cat (Cls p) r) s =
  match s with
  | [] => false
  | c :: s' => p c && Re.test r s'
  end.
Proof.
  destruct s as [|c s]; simpl; [reflexivity|].
  destruct (p c); [apply test_Cat_Eps|apply test_Cat_Void].
Qed.

Lemma test_Star_Cls (p : N -> bool) (s : jsstring) :
  Re.test (Star (Cls p)) s = forallb p s.
Proof.
  induction s as [|c s IH]; simpl; [reflexivity|].
  destruct (p c); simpl.
  - now rewrite test_Cat_Eps.
  - apply test_Cat_Void.
Qed.

(** [/^[class]+$/]: a non-empty string of characters of the class. *)
Lemma test_Plus_Cls (p : N -> bool) (s : jsstring) :
  Re.test (Re.Plus (Cls p)) s = negb (length s =? 0)%nat && forallb p s.
Proof.
  unfold Re.Plus. rewrite test_Cat_Cls.
  destruct s as [|c s]; simpl; [reflexivity|].
  now rewrite test_Star_Cls.
Qed.

(** [/^[class]{n}$/]: exactly [n] characters of the class. *)
Lemma test_Rep_Cls (p : N -> bool) (n : nat) (s : jsstring) :
  Re.test (Re.Rep n (Cls p)) s = (length s =? n)%nat && forallb p s.
Proof.
  revert s; induction n as [|n IH]; intros s.
  - cbn [Re.Rep]. rewrite test_Eps. destruct s; reflexivity.
  - cbn [Re.Rep]. rewrite test_Cat_Cls.
    destruct s as [|c s]; [reflexivity|].
    rewrite IH. cbn [length forallb Nat.eqb].
    destruct (p c), (length s =? n)%nat; reflexivity.
Qed.

End Regex.

(** ** Parsing numbers *)

Section Numbers.

Lemma digits_nonneg (s : jsstring) (acc : Z) : 0 <= acc -> 0 <= Js.digits acc s.
Proof.
  revert acc; induction s as [|c s IH]; intros acc H; simpl; [assumption|].
  destruct (Js.is_digit c); [apply IH; lia|assumption].
Qed.

(** On a digit-only string [parseInt] returns a number, never [NaN], and
    the number is not negative. *)
Lemma parseInt10_digits (s : jsstring) :
  Re.test router.digits_re s = true ->
  Js.parseInt10 s = Js.Num (Js.digits 0 s) /\ 0 <= Js.digits 0 s.
Proof.
  unfold router.digits_re. rewrite test_Plus_Cls.
  destruct s as [|c s]; [discriminate|].
  cbn [length Nat.eqb negb forallb andb]. intros H.
  apply andb_true_iff in H. destruct H as [Hc Hs].
  split; [|apply digits_nonneg; lia].
  unfold Js.parseInt10. cbn [Js.trimStart].
  rewrite (digit_not_space c Hc).
  destruct (digit_not_sign c Hc) as [-> ->].
  rewrite Hc. f_equal. lia.
Qed.


End Numbers.

(** ** The list handler: closed set of parameters *)

Section ListParameters.

(** The handler, step by step: each check either answers or lets the next
    one run, and the repository is reached only when all four pass. *)
Lemma get_all_steps (E : env) (q : query) (w : world) :
  router.get_all E q w =
  match router.check_extra q with
  | inl r => (Return r, w)
  | inr _ =>
  match router.check_page (prop "page" q) with
  | inl r => (Return r, w)
  | inr pageNum =>
  match router.check_perPage (prop "perPage" q) with
  | inl r => (Return r, w)
  | inr perPageNum =>
  match router.check_borough (prop "borough" q) with
  | inl r => (Return r, w)
  | inr boroughFilter => fetch_page E pageNum perPageNum boroughFilter w
  end end end end.
Proof.
  unfold router.get_all, fetch_page, try_catch.
  destruct (router.check_extra q); [reflexivity|].
  destruct (router.check_page _); [reflexivity|].
  destruct (router.check_perPage _); [reflexivity|].
  destruct (router.check_borough _); reflexivity.
Qed.

Lemma not_allowed (names : list string) (k : jsstring) :
  ~ In k (map lit names) ->
  existsb (fun n => Js.eqb k (lit n)) names = false.
Proof.
  intros H. destruct (existsb _ names) eqn:X; [exfalso|reflexivity].
  apply existsb_exists in X. destruct X as (n & Hn & Heq).
  apply eqb_eq in Heq. subst. apply H, in_map, Hn.
Qed.

Lemma rest_keys_complete (names : list string) (q : query) (k : jsstring) (v : qval) :
  In (k, v) q -> ~ In k (map lit names) -> In k (rest_keys names q).
Proof.
  intros Hq Hk. unfold rest_keys.
  apply (in_map fst _ (k, v)). apply filter_In. split; [assumption|].
  simpl. now rewrite not_allowed.
Qed.

Lemma rest_keys_sound (names : list string) (q : query) (k : jsstring) :
  In k (rest_keys names q) ->
  ~ In k (map lit names) /\ exists v, In (k, v) q.
Proof.
  unfold rest_keys. intros H. apply in_map_iff in H.
  destruct H as ([k' v] & <- & H). apply filter_In in H. destruct H as [Hq Hf].
  simpl in *. split; [|now exists v].
  intros Hin. apply in_map_iff in Hin. destruct Hin as (n & Hn & Hin).
  apply negb_true_iff in Hf.
  assert (X : existsb (fun n => Js.eqb k' (lit n)) names = true).
  { apply existsb_exists. exists n. split; [assumption|]. apply eqb_eq. now symmetry. }
  congruence.
Qed.

Lemma check_extra_passes (q : query) :
  rest_keys router.allowedParams q = [] -> router.check_extra q = inr tt.
Proof. intros H. unfold router.check_extra. now rewrite H. Qed.

(** C1: a list request with a parameter name outside page, perPage and
    borough is answered 400 with one message that names every such key, and
    no other, and the allowed set; the answer is the same whatever the
    values of page, perPage and borough are, so the check precedes theirs,
    and no repository call is made. *)
Theorem unknown_parameters_rejected (E : env) (q : query) (w : world)
  (k : jsstring) (v : qval) :
  In (k, v) q ->
  ~ In k (map lit router.allowedParams) ->
  let keys := rest_keys router.allowedParams q in
  let message :=
    lit "Invalid query parameters: " ++ Js.join (lit ", ") keys
    ++ lit ". Allowed parameters: page, perPage, borough" in
  router.get_all E q w = (Return (failure 400 message), w)
  /\ (forall k' v', In (k', v') q -> ~ In k' (map lit router.allowedParams) ->
        In k' keys /\ Js.includes message k' = true)
  /\ (forall k', In k' keys -> ~ In k' (map lit router.allowedParams))
  /\ (forall a, In a router.allowedParams -> Js.includes message (lit a) = true).
Proof.
  intros Hq Hk keys message.
  assert (Hin : In k keys) by (eapply rest_keys_complete; eassumption).
  repeat split.
  - rewrite get_all_steps. unfold router.check_extra. fold keys.
    destruct keys as [|k0 keys0]; [destruct Hin|reflexivity].
  - eapply rest_keys_complete; eassumption.
  - unfold message. apply includes_app_r, includes_app_l, includes_join.
    eapply rest_keys_complete; eassumption.
  - intros k' Hk'. now apply rest_keys_sound in Hk'.
  - intros a Ha. unfold message.
    rewrite app_assoc. apply includes_app_r.
    destruct Ha as [<-|[<-|[<-|[]]]]; vm_compute; reflexivity.
Qed.

(** [?foo=1&page=0]: the unknown parameter is reported, not the page. *)
Lemma unknown_parameters_rejected_example :
  let q := [(lit "foo", QStr (lit "1")); (lit "page", QStr (lit "0"))] in
  In (lit "foo", QStr (lit "1")) q
  /\ ~ In (lit "foo") (map lit router.allowedParams)
  /\ router.get_all Sample.E q Sample.empty =
     (Return (failure 400
        (lit "Invalid query parameters: foo. Allowed parameters: page, perPage, borough")),
      Sample.empty)
  /\ router.check_page (prop "page" q) =
     inl (failure 400 (lit "Page parameter must be greater than 0")).
Proof.
  intros q.
  assert (H1 : In (lit "foo", QStr (lit "1")) q) by (left; reflexivity).
  assert (H2 : ~ In (lit "foo") (map lit router.allowedParams))
    by (intros [H|[H|[H|[]]]]; discriminate H).
  split; [exact H1|]. split; [exact H2|]. split.
  - exact (proj1 (unknown_parameters_rejected Sample.E q Sample.empty
                    (lit "foo") (QStr (lit "1")) H1 H2)).
  - reflexivity.
Defined.

End ListParameters.

(** ** The list handler: page and perPage *)

Section PageParameters.

Lemma lt_Num (a b : Z) : Js.lt (Js.Num a) (Js.Num b) = (a <? b).
Proof. reflexivity. Qed.

Lemma gt_Num (a b : Z) : Js.gt (Js.Num a) (Js.Num b) = (b <? a).
Proof. reflexivity. Qed.

(** The outcome of step 2 on a digit-only value is decided by the parsed
    number alone. *)
Lemma check_page_digits (v : qval) (n : Z) :
  Re.test router.digits_re (toString v) = true ->
  Js.parseInt10 (toString v) = Js.Num n ->
  router.check_page (Some v) =
  if n <? 1 then inl (failure 400 (lit "Page parameter must be greater than 0"))
  else if 10000 <? n then inl (failure 400 (lit "Page parameter cannot exceed 10000"))
  else inr (Js.Num n).
Proof.
  intros Hre Hn. unfold router.check_page. rewrite Hre, Hn. cbn [negb].
  now rewrite lt_Num, gt_Num.
Qed.

Lemma check_perPage_digits (v : qval) (n : Z) :
  Re.test router.digits_re (toString v) = true ->
  Js.parseInt10 (toString v) = Js.Num n ->
  router.check_perPage (Some v) =
  if n <? 1 then inl (failure 400 (lit "perPage parameter must be greater than 0"))
  else if 100 <? n then inl (failure 400 (lit "perPage parameter cannot exceed 100 items"))
  else inr (Js.Num n).
Proof.
  intros Hre Hn. unfold router.check_perPage. rewrite Hre, Hn. cbn [negb].
  now rewrite lt_Num, gt_Num.
Qed.

Lemma check_page_accepts (v : qval) (p : Js.num) :
  router.check_page (Some v) = inr p <->
  digits_in_range 1 10000 v /\ p = Js.parseInt10 (toString v).
Proof.
  unfold digits_in_range.
  destruct (Re.test router.digits_re (toString v)) eqn:Hre.
  - destruct (parseInt10_digits _ Hre) as [Hn _].
    rewrite (check_page_digits v _ Hre Hn), Hn.
    destruct (Z.ltb_spec (Js.digits 0 (toString v)) 1);
      [|destruct (Z.ltb_spec 10000 (Js.digits 0 (toString v)))].
    + split; [discriminate|]. intros [(_ & n & Heq & Hr) _].
      injection Heq as <-. lia.
    + split; [discriminate|]. intros [(_ & n & Heq & Hr) _].
      injection Heq as <-. lia.
    + split.
      * intros Heq. injection Heq as <-. split; [|reflexivity].
        split; [reflexivity|]. eexists. split; [reflexivity|lia].
      * intros [_ ->]. reflexivity.
  - unfold router.check_page. rewrite Hre. cbn [negb].
    split; [discriminate|]. intros [[H _] _]. discriminate H.
Qed.

Lemma check_perPage_accepts (v : qval) (p : Js.num) :
  router.check_perPage (Some v) = inr p <->
  digits_in_range 1 100 v /\ p = Js.parseInt10 (toString v).
Proof.
  unfold digits_in_range.
  destruct (Re.test router.digits_re (toString v)) eqn:Hre.
  - destruct (parseInt10_digits _ Hre) as [Hn _].
    rewrite (check_perPage_digits v _ Hre Hn), Hn.
    destruct (Z.ltb_spec (Js.digits 0 (toString v)) 1);
      [|destruct (Z.ltb_spec 100 (Js.digits 0 (toString v)))].
    + split; [discriminate|]. intros [(_ & n & Heq & Hr) _].
      injection Heq as <-. lia.
    + split; [discriminate|]. intros [(_ & n & Heq & Hr) _].
      injection Heq as <-. lia.
    + split.
      * intros Heq. injection Heq as <-. split; [|reflexivity].
        split; [reflexivity|]. eexists. split; [reflexivity|lia].
      * intros [_ ->]. reflexivity.
  - unfold router.check_perPage. rewrite Hre. cbn [negb].
    split; [discriminate|]. intros [[H _] _]. discriminate H.
Qed.

(** What step 2 and step 3 let through is a number within the bounds. *)
Lemma check_page_range (page : option qval) (p : Js.num) :
  router.check_page page = inr p -> exists n, p = Js.Num n /\ 1 <= n <= 10000.
Proof.
  destruct page as [v|].
  - intros H. apply check_page_accepts in H.
    destruct H as [(_ & n & Hn & Hr) ->]. now exists n.
  - intros H. injection H as <-. exists 1. split; [reflexivity|lia].
Qed.

Lemma check_perPage_range (perPage : option qval) (p : Js.num) :
  router.check_perPage perPage = inr p -> exists n, p = Js.Num n /\ 1 <= n <= 100.
Proof.
  destruct perPage as [v|].
  - intros H. apply check_perPage_accepts in H.
    destruct H as [(_ & n & Hn & Hr) ->]. now exists n.
  - intros H. injection H as <-. exists 10. split; [reflexivity|lia].
Qed.




End PageParameters.

(** ** The list handler: borough *)

Section BoroughParameter.

Lemma borough_re_spec (s : jsstring) :
  Re.test router.borough_re s = true <->
  s <> [] /\ Forall (fun c => router.borough_char c = true) s.
Proof.
  unfold router.borough_re. rewrite test_Plus_Cls, andb_true_iff, forallb_forall.
  rewrite List.Forall_forall. destruct s; simpl; intuition congruence.
Qed.

Lemma borough_char_spec (c : N) :
  router.borough_char c = true <->
  Js.is_alpha c = true \/ Js.is_space c = true \/ c = 45%N \/ c = 39%N.
Proof.
  unfold router.borough_char, Js.is_alpha, Js.is_char.
  rewrite !orb_true_iff, !N.eqb_eq. tauto.
Qed.

Lemma check_borough_accepts (v : qval) (b : option jsstring) :
  router.check_borough (Some v) = inr b <->
  exists s, v = QStr s /\ b = Some (Js.trim s) /\ Js.trim s <> []
            /\ (length (Js.trim s) <= 50)%nat
            /\ Re.test router.borough_re (Js.trim s) = true.
Proof.
  destruct v as [s|l|fields]; simpl;
    [|split; [discriminate|intros (s & H & _); discriminate H]..].
  destruct (Nat.eqb_spec (length (Js.trim s)) 0) as [H0|H0].
  { split; [discriminate|]. intros (s' & Hs & _ & Hne & _).
    injection Hs as <-. destruct (Js.trim s); [congruence|discriminate H0]. }
  destruct (Nat.ltb_spec 50 (length (Js.trim s))) as [H50|H50].
  { split; [discriminate|]. intros (s' & Hs & _ & _ & Hle & _).
    injection Hs as <-. lia. }
  destruct (Re.test router.borough_re (Js.trim s)) eqn:Hre; cbn [negb].
  - split.
    + intros H. injection H as <-. exists s. repeat split; try assumption.
      intros Hnil. rewrite Hnil in H0. now apply H0.
    + intros (s' & Hs & -> & _). now injection Hs as <-.
  - split; [discriminate|]. intros (s' & Hs & _ & _ & _ & Hre').
    injection Hs as <-. congruence.
Qed.

(** A filter that passes step 4 is not empty and has no character outside
    the whitelist. *)
Lemma check_borough_whitelist (borough : option qval) (b : jsstring) :
  router.check_borough borough = inr (Some b) ->
  b <> [] /\ Forall (fun c => router.borough_char c = true) b.
Proof.
  destruct borough as [v|]; [|discriminate].
  intros H. apply check_borough_accepts in H.
  destruct H as (s & _ & Hb & _ & _ & Hre). injection Hb as ->.
  now apply borough_re_spec.
Qed.

(** C3: in a list request whose parameters are known and whose page and
    perPage are valid, an absent borough leaves the filter unset; a present
    borough is accepted exactly when it is a string that, once trimmed, is
    not empty, has at most 50 characters and matches [^[A-Za-z\s\-']+$],
    that is, consists of letters, white space, hyphens and apostrophes; the
    filter passed on is the trimmed value; empty, too long and bad
    characters are each answered 400 with their own message. *)
Theorem borough_validated (E : env) (q : query) (w : world) (p pp : Js.num) :
  rest_keys router.allowedParams q = [] ->
  router.check_page (prop "page" q) = inr p ->
  router.check_perPage (prop "perPage" q) = inr pp ->
  let borough := prop "borough" q in
  let answers (msg : string) :=
    router.get_all E q w = (Return (failure 400 (lit msg)), w) in
  (borough = None -> router.get_all E q w = fetch_page E p pp None w)
  /\ (forall v b, borough = Some v ->
        router.check_borough borough = inr b <->
        exists s, v = QStr s /\ b = Some (Js.trim s) /\ Js.trim s <> []
                  /\ (length (Js.trim s) <= 50)%nat
                  /\ Re.test router.borough_re (Js.trim s) = true)
  /\ (forall s, Re.test router.borough_re s = true <->
        s <> [] /\ Forall (fun c => router.borough_char c = true) s)
  /\ (forall c, router.borough_char c = true <->
        Js.is_alpha c = true \/ Js.is_space c = true \/ c = 45%N \/ c = 39%N)
  /\ (forall b, router.check_borough borough = inr b ->
        router.get_all E q w = fetch_page E p pp b w)
  /\ (forall s, borough = Some (QStr s) -> Js.trim s = [] ->
        answers "Borough parameter cannot be empty")
  /\ (forall s, borough = Some (QStr s) -> (50 < length (Js.trim s))%nat ->
        answers "Borough parameter cannot exceed 50 characters")
  /\ (forall s, borough = Some (QStr s) -> Js.trim s <> [] ->
        (length (Js.trim s) <= 50)%nat ->
        Re.test router.borough_re (Js.trim s) = false ->
        answers "Borough parameter can only contain letters, spaces, hyphens, and apostrophes")
  /\ List.NoDup (map lit
       ["Borough parameter cannot be empty";
        "Borough parameter cannot exceed 50 characters";
        "Borough parameter can only contain letters, spaces, hyphens, and apostrophes"]).
Proof.
  intros Hextra Hp Hpp borough answers. unfold answers.
  assert (Steps : router.get_all E q w =
                  match router.check_borough borough with
                  | inl r => (Return r, w)
                  | inr b => fetch_page E p pp b w
                  end).
  { rewrite get_all_steps, (check_extra_passes q Hextra), Hp, Hpp. reflexivity. }
  split; [intros Hb; rewrite Steps, Hb; reflexivity|].
  split; [intros v b ->; apply check_borough_accepts|].
  split; [apply borough_re_spec|].
  split; [apply borough_char_spec|].
  split; [intros b Hb; rewrite Steps, Hb; reflexivity|].
  split.
  { intros s Hs Hnil. rewrite Steps, Hs. simpl. now rewrite Hnil. }
  split.
  { intros s Hs Hlen. rewrite Steps, Hs. simpl.
    destruct (Nat.eqb_spec (length (Js.trim s)) 0); [lia|].
    destruct (Nat.ltb_spec 50 (length (Js.trim s))); [reflexivity|lia]. }
  split.
  { intros s Hs Hne Hlen Hre. rewrite Steps, Hs. simpl.
    destruct (Nat.eqb_spec (length (Js.trim s)) 0) as [H0|H0].
    { destruct (Js.trim s); [congruence|discriminate H0]. }
    destruct (Nat.ltb_spec 50 (length (Js.trim s))); [lia|].
    now rewrite Hre. }
  repeat (apply List.NoDup_cons;
          [intros H; repeat (destruct H as [H|H]; [discriminate H|]); destruct H|]).
  apply List.NoDup_nil.
Qed.

(** [?borough=%20Manhattan%20]: the trimmed name is the filter. *)
Lemma borough_validated_example :
  let q := [(lit "borough", QStr (lit " Manhattan "))] in
  rest_keys router.allowedParams q = []
  /\ router.check_page (prop "page" q) = inr (Js.Num 1)
  /\ router.check_perPage (prop "perPage" q) = inr (Js.Num 10)
  /\ router.get_all Sample.E q Sample.empty =
     fetch_page Sample.E (Js.Num 1) (Js.Num 10) (Some (lit "Manhattan")) Sample.empty.
Proof.
  intros q.
  assert (H1 : rest_keys router.allowedParams q = []) by reflexivity.
  assert (H2 : router.check_page (prop "page" q) = inr (Js.Num 1)) by reflexivity.
  assert (H3 : router.check_perPage (prop "perPage" q) = inr (Js.Num 10))
    by reflexivity.
  split; [exact H1|]. split; [exact H2|]. split; [exact H3|].
  destruct (borough_validated Sample.E q Sample.empty _ _ H1 H2 H3)
    as (_ & _ & _ & _ & Hpass & _).
  apply Hpass. reflexivity.
Defined.

End BoroughParameter.

(** ** The list handler: the success envelope *)

Section ListEnvelope.

Ltac fails_400 H :=
  repeat match type of H with
    | context [if ?c then _ else _] => destruct c
    end;
  try discriminate H; injection H as <-; reflexivity.

Lemma check_extra_status (q : query) (r : response) :
  router.check_extra q = inl r -> status r = 400.
Proof. unfold router.check_extra. intros H. fails_400 H. Qed.

Lemma check_page_status (page : option qval) (r : response) :
  router.check_page page = inl r -> status r = 400.
Proof.
  unfold router.check_page. destruct page; [|discriminate].
  intros H. fails_400 H.
Qed.

Lemma check_perPage_status (perPage : option qval) (r : response) :
  router.check_perPage perPage = inl r -> status r = 400.
Proof.
  unfold router.check_perPage. destruct perPage; [|discriminate].
  intros H. fails_400 H.
Qed.

Lemma check_borough_status (borough : option qval) (r : response) :
  router.check_borough borough = inl r -> status r = 400.
Proof.
  unfold router.check_borough. destruct borough as [[s|l|f]|]; intros H;
    try discriminate H; try (injection H as <-; reflexivity).
  fails_400 H.
Qed.

(** The list handler answers 200 only with the envelope of a page that the
    repository returned for the validated parameters. *)
Lemma get_all_200 (E : env) (q : query) (w w' : world) (r : response) :
  router.get_all E q w = (Return r, w') ->
  status r = 200 ->
  exists p pp b restaurants,
    router.check_page (prop "page" q) = inr p
    /\ router.check_perPage (prop "perPage" q) = inr pp
    /\ router.check_borough (prop "borough" q) = inr b
    /\ db.getAllRestaurants E p pp b w = (Return restaurants, w')
    /\ r = router.list_envelope restaurants p pp b.
Proof.
  rewrite get_all_steps. intros H S.
  destruct (router.check_extra q) as [r0|[]] eqn:H0.
  { injection H as <- <-. apply check_extra_status in H0. lia. }
  destruct (router.check_page _) as [r1|p] eqn:H1.
  { injection H as <- <-. apply check_page_status in H1. lia. }
  destruct (router.check_perPage _) as [r2|pp] eqn:H2.
  { injection H as <- <-. apply check_perPage_status in H2. lia. }
  destruct (router.check_borough _) as [r3|b] eqn:H3.
  { injection H as <- <-. apply check_borough_status in H3. lia. }
  unfold fetch_page, try_catch, bind in H.
  destruct (db.getAllRestaurants E p pp b w) as [[rs|e] w1] eqn:Hdb.
  - injection H as <- <-. exists p, pp, b, rs. auto.
  - injection H as <- <-. simpl in S. lia.
Qed.

(** C4, as the code has it: a 200 list response carries the page and perPage
    that were used (the validated ones, within their bounds),
    [totalReturned] is the length of [data], [hasMore] is true exactly when
    [totalReturned] equals [perPage], and [filter] holds the applied
    borough when a filter was used and is [null] when none was. *)
Theorem list_success_envelope (E : env) (q : query) (w w' : world) (r : response) :
  router.get_all E q w = (Return r, w') ->
  status r = 200 ->
  exists (page perPage : Z) (boroughFilter : option jsstring) (data : list entity),
    router.check_page (prop "page" q) = inr (Js.Num page)
    /\ 1 <= page <= 10000
    /\ router.check_perPage (prop "perPage" q) = inr (Js.Num perPage)
    /\ 1 <= perPage <= 100
    /\ router.check_borough (prop "borough" q) = inr boroughFilter
    /\ db.getAllRestaurants E (Js.Num page) (Js.Num perPage) boroughFilter w
       = (Return data, w')
    /\ response_field "data" r = Some (JArr (map JDoc data))
    /\ response_field "pagination" r =
       Some (JObj [("page", JNum (Js.Num page));
                   ("perPage", JNum (Js.Num perPage));
                   ("totalReturned", JNum (Js.Num (Z.of_nat (length data))));
                   ("hasMore", JBool (Z.of_nat (length data) =? perPage))])
    /\ response_field "filter" r =
       Some (match boroughFilter with
             | Some s => JObj [("borough", JStr s)]
             | None => JNull
             end)
    /\ response_field "query" r =
       Some (JObj [("page", JNum (Js.Num page));
                   ("perPage", JNum (Js.Num perPage));
                   ("borough", match boroughFilter with
                               | Some s => JStr s
                               | None => JNull
                               end)]).
Proof.
  intros H S.
  destruct (get_all_200 E q w w' r H S) as (p & pp & b & rs & Hp & Hpp & Hb & Hdb & ->).
  destruct (check_page_range _ _ Hp) as (n & -> & Hn).
  destruct (check_perPage_range _ _ Hpp) as (m & -> & Hm).
  exists n, m, b, rs. repeat (split; [assumption || lia|]).
  split; [reflexivity|]. split; [reflexivity|]. split; [|reflexivity].
  destruct b as [s|]; [|reflexivity].
  destruct (check_borough_whitelist _ _ Hb) as [Hne _].
  destruct s; [congruence|reflexivity].
Qed.

(** [GET /api/restaurants] on an empty collection. *)
Lemma list_success_envelope_example :
  let r := router.list_envelope [] (Js.Num 1) (Js.Num 10) None in
  let w' := logged (Call_getAllRestaurants (Js.Num 1) (Js.Num 10) None) Sample.empty in
  router.get_all Sample.E [] Sample.empty = (Return r, w')
  /\ status r = 200
  /\ response_field "filter" r = Some JNull.
Proof.
  intros r w'.
  assert (H : router.get_all Sample.E [] Sample.empty = (Return r, w'))
    by (vm_compute; reflexivity).
  assert (S : status r = 200) by reflexivity.
  split; [exact H|]. split; [exact S|].
  destruct (list_success_envelope Sample.E [] Sample.empty w' r H S)
    as (n & m & b & rs & _ & _ & _ & _ & Hb & _ & _ & _ & Hf & _).
  injection Hb as <-. exact Hf.
Defined.

(** The claim about [filter] fails as it is worded: without a borough the
    200 envelope has a [filter] field, whose value is [null]. *)
Lemma list_filter_null_not_absent :
  let r := router.list_envelope [] (Js.Num 1) (Js.Num 10) None in
  router.get_all Sample.E [] Sample.empty =
    (Return r, logged (Call_getAllRestaurants (Js.Num 1) (Js.Num 10) None) Sample.empty)
  /\ status r = 200
  /\ router.check_borough (prop "borough" []) = inr None
  /\ ~ filter_as_specified None r.
Proof.
  intros r. split; [vm_compute; reflexivity|].
  split; [reflexivity|]. split; [reflexivity|].
  unfold filter_as_specified. discriminate.
Qed.

End ListEnvelope.

(** ** The repository: a filtered page *)

Section PagedFind.

#[local] Instance id_le_total : Total Restaurant.id_le.
Proof. intros a b. unfold Restaurant.id_le. lia. Qed.

#[local] Instance id_le_trans : Transitive Restaurant.id_le.
Proof. intros a b c. unfold Restaurant.id_le. lia. Qed.

(** All the stored entities that a filter selects, by ascending [_id]. *)
Lemma selected_sorted (E : env) (f : Restaurant.filter_doc) (w : world) :
  let found :=
    merge_sort Restaurant.id_le
      (List.filter (fun e => Restaurant.selects E f (snd e)) (map_to_list (store w))) in
  StronglySorted Restaurant.id_le found
  /\ NoDup found
  /\ forall id r, In (id, r) found <->
       store w !! id = Some r /\ Restaurant.selects E f r = true.
Proof.
  intros found. split; [apply StronglySorted_merge_sort; apply _|].
  assert (P : found ≡ₚ List.filter (fun e => Restaurant.selects E f (snd e))
                         (map_to_list (store w)))
    by apply merge_sort_Permutation.
  split.
  - rewrite P. apply NoDup_ListNoDup, List.NoDup_filter, NoDup_ListNoDup,
      NoDup_map_to_list.
  - intros id r. rewrite <- list_elem_of_In, P, list_elem_of_In, filter_In.
    rewrite <- list_elem_of_In, elem_of_map_to_list. reflexivity.
Qed.







End PagedFind.

(** ** Item requests: the format of the id *)

Section ItemId.

Lemma oid_re_spec (id : jsstring) :
  Re.test Restaurant.oid_re id = true <->
  length id = 24%nat /\ Forall (fun c => Js.is_hex c = true) id.
Proof.
  unfold Restaurant.oid_re.
  rewrite test_Rep_Cls, andb_true_iff, Nat.eqb_eq, forallb_forall, List.Forall_forall.
  reflexivity.
Qed.

Lemma oid_nonempty (id : jsstring) :
  Re.test Restaurant.oid_re id = true -> exists c s, id = c :: s.
Proof.
  intros H. apply oid_re_spec in H. destruct H as [H _].
  destruct id as [|c s]; [discriminate H|]. now exists c, s.
Qed.

(** C6: GET, PUT and DELETE of [/:id] with an id that is not 24
    hexadecimal digits are answered 400 "Invalid restaurant ID format" and
    leave the world as it was: no repository call is made. *)
Theorem malformed_id_rejected (E : env) (id : jsstring) (b : option body) (w : world) :
  ~ (length id = 24%nat /\ Forall (fun c => Js.is_hex c = true) id) ->
  let answer := (Return (failure 400 (lit "Invalid restaurant ID format")), w) in
  router.get_one E id w = answer
  /\ router.put_one E id b w = answer
  /\ router.delete_one E id w = answer.
Proof.
  intros H answer.
  assert (Hre : Re.test Restaurant.oid_re id = false).
  { destruct (Re.test Restaurant.oid_re id) eqn:X; [|reflexivity].
    exfalso. now apply H, oid_re_spec. }
  unfold router.get_one, router.put_one, router.delete_one, try_catch.
  rewrite Hre. cbn [negb]. auto.
Qed.

(** [GET /api/restaurants/not-a-valid-id] *)
Lemma malformed_id_rejected_example :
  ~ (length (lit "not-a-valid-id") = 24%nat
     /\ Forall (fun c => Js.is_hex c = true) (lit "not-a-valid-id"))
  /\ router.get_one Sample.E (lit "not-a-valid-id") Sample.one =
     (Return (failure 400 (lit "Invalid restaurant ID format")), Sample.one).
Proof.
  assert (H : ~ (length (lit "not-a-valid-id") = 24%nat
                 /\ Forall (fun c => Js.is_hex c = true) (lit "not-a-valid-id")))
    by (intros [H _]; discriminate H).
  split; [exact H|].
  exact (proj1 (malformed_id_rejected Sample.E (lit "not-a-valid-id") None
                  Sample.one H)).
Defined.

End ItemId.

(** ** Delete, and delete again *)

Section Delete.

(** Deleting a stored entity removes it and answers 204 without a body. *)
Lemma delete_present (E : env) (id : jsstring) (w : world) (r : restaurant) :
  Re.test Restaurant.oid_re id = true ->
  fault w = None ->
  store w !! Restaurant.hex_value id = Some r ->
  router.delete_one E id w =
  (Return {| status := 204; payload := None |},
   {| store := delete (Restaurant.hex_value id) (store w);
      next_oid := next_oid w; fault := None;
      calls := Call_deleteRestaurantById id :: calls w |}).
Proof.
  intros Hre Hf Hr. destruct (oid_nonempty id Hre) as (c & s & ->).
  unfold router.delete_one, try_catch, bind. rewrite Hre. cbn [negb].
  unfold db.deleteRestaurantById, try_catch, bind, log. cbv beta iota.
  unfold Restaurant.findByIdAndDelete, Restaurant.cast_oid. rewrite Hre.
  unfold bind, round_trip, get_world, set_store, ret.
  destruct w as [st nx fl cl].
  cbv beta iota delta [fault store next_oid calls] in *.
  subst fl. rewrite Hr. reflexivity.
Qed.

(** Deleting an absent entity changes nothing and answers 404. *)
Lemma delete_absent (E : env) (id : jsstring) (w : world) :
  Re.test Restaurant.oid_re id = true ->
  fault w = None ->
  store w !! Restaurant.hex_value id = None ->
  router.delete_one E id w =
  (Return (router.not_found id), logged (Call_deleteRestaurantById id) w).
Proof.
  intros Hre Hf Hr. destruct (oid_nonempty id Hre) as (c & s & ->).
  unfold router.delete_one, try_catch, bind. rewrite Hre. cbn [negb].
  unfold db.deleteRestaurantById, try_catch, bind, log. cbv beta iota.
  unfold Restaurant.findByIdAndDelete, Restaurant.cast_oid. rewrite Hre.
  unfold bind, round_trip, get_world, set_store, ret.
  destruct w as [st nx fl cl].
  cbv beta iota delta [fault store next_oid calls] in *.
  subst fl. rewrite Hr. reflexivity.
Qed.

Lemma delete_absent_repeated (E : env) (id : jsstring) (n : nat) (w : world) :
  Re.test Restaurant.oid_re id = true ->
  fault w = None ->
  store w !! Restaurant.hex_value id = None ->
  exists w', repeat_request (router.delete_one E id) n w =
             (Return (replicate n (router.not_found id)), w')
             /\ store w' = store w.
Proof.
  intros Hre. revert w. induction n as [|n IH]; intros w Hf Hr.
  - exists w. split; reflexivity.
  - cbn [repeat_request]. unfold bind at 1.
    rewrite (delete_absent E id w Hre Hf Hr).
    destruct (IH (logged (Call_deleteRestaurantById id) w) Hf Hr) as (w' & Hrep & Hst).
    exists w'. unfold bind at 1. rewrite Hrep. split; [reflexivity|exact Hst].
Qed.

(** C7: DELETE of a well-formed id that is stored answers 204 with an empty
    body and removes that entity and no other; after it, every further
    DELETE of the same id answers 404 with a message that contains the id,
    however often it is repeated, and changes nothing. *)
Theorem delete_then_not_found (E : env) (id : jsstring) (w : world) (r : restaurant) :
  Re.test Restaurant.oid_re id = true ->
  fault w = None ->
  store w !! Restaurant.hex_value id = Some r ->
  exists w1,
    router.delete_one E id w = (Return {| status := 204; payload := None |}, w1)
    /\ store w1 !! Restaurant.hex_value id = None
    /\ (forall k, k <> Restaurant.hex_value id -> store w1 !! k = store w !! k)
    /\ (forall n, exists wn,
          repeat_request (router.delete_one E id) n w1 =
            (Return (replicate n (router.not_found id)), wn)
          /\ store wn = store w1)
    /\ status (router.not_found id) = 404
    /\ response_field "message" (router.not_found id) =
       Some (JStr (lit "Restaurant with ID " ++ id ++ lit " not found"))
    /\ Js.includes (lit "Restaurant with ID " ++ id ++ lit " not found") id = true.
Proof.
  intros Hre Hf Hr. eexists. split; [exact (delete_present E id w r Hre Hf Hr)|].
  cbn [store]. split; [apply lookup_delete_eq|].
  split; [intros k Hk; now apply lookup_delete_ne|].
  split.
  { intros n. apply delete_absent_repeated; [assumption|reflexivity|].
    cbn [store]. apply lookup_delete_eq. }
  split; [reflexivity|]. split; [reflexivity|]. apply includes_middle.
Qed.

(** Two deletes of the stored sample restaurant: 204, then 404. *)
Lemma delete_then_not_found_example :
  Re.test Restaurant.oid_re Sample.id = true
  /\ fault Sample.one = None
  /\ store Sample.one !! Restaurant.hex_value Sample.id
     = Some (Schema.build (Schema.cast Sample.record))
  /\ exists w1 w2,
       router.delete_one Sample.E Sample.id Sample.one =
         (Return {| status := 204; payload := None |}, w1)
       /\ router.delete_one Sample.E Sample.id w1 =
         (Return (router.not_found Sample.id), w2).
Proof.
  assert (H1 : Re.test Restaurant.oid_re Sample.id = true) by reflexivity.
  assert (H2 : fault Sample.one = None) by reflexivity.
  assert (H3 : store Sample.one !! Restaurant.hex_value Sample.id
               = Some (Schema.build (Schema.cast Sample.record))) by reflexivity.
  split; [exact H1|]. split; [exact H2|]. split; [exact H3|].
  destruct (delete_then_not_found Sample.E Sample.id Sample.one _ H1 H2 H3)
    as (w1 & Hdel & _ & _ & Hrep & _).
  destruct (Hrep 1%nat) as (w2 & Hagain & _).
  exists w1, w2. split; [exact Hdel|].
  cbn [repeat_request] in Hagain. unfold bind, ret in Hagain.
  destruct (router.delete_one Sample.E Sample.id w1) as [[r'|e] w'];
    [|discriminate Hagain].
  injection Hagain as -> ->. reflexivity.
Defined.

End Delete.

(** ** Create and update: the body *)

Section Body.

(** C9: POST, and PUT with a well-formed id, whose body is absent or has no
    key, are answered 400 with the body-required message of the operation;
    the world is left as it was, so no repository call was made and the
    collection is unchanged. *)
Theorem empty_body_rejected (E : env) (id : jsstring) (b : option body) (w : world) :
  b = None \/ (exists b', b = Some b' /\ body_keys b' = []) ->
  router.post_one E b w =
    (Return (failure 400 (lit "Request body is required to create a restaurant")), w)
  /\ (Re.test Restaurant.oid_re id = true ->
      router.put_one E id b w =
        (Return (failure 400 (lit "Request body is required to update a restaurant")),
         w)).
Proof.
  intros H.
  assert (Hm : router.body_missing b = true).
  { destruct H as [->|(b' & -> & Hk)]; [reflexivity|].
    unfold router.body_missing. now rewrite Hk. }
  unfold router.post_one, router.put_one, try_catch. rewrite Hm.
  split; [reflexivity|]. intros ->. reflexivity.
Qed.

(** [POST /api/restaurants] and [PUT /api/restaurants/:id] with the body
    [{}]. *)
Lemma empty_body_rejected_example :
  (Some Sample.empty_body = None
   \/ exists b', Some Sample.empty_body = Some b' /\ body_keys b' = [])
  /\ router.post_one Sample.E (Some Sample.empty_body) Sample.one =
     (Return (failure 400 (lit "Request body is required to create a restaurant")),
      Sample.one)
  /\ router.put_one Sample.E Sample.id (Some Sample.empty_body) Sample.one =
     (Return (failure 400 (lit "Request body is required to update a restaurant")),
      Sample.one).
Proof.
  assert (H : Some Sample.empty_body = None
              \/ exists b', Some Sample.empty_body = Some b' /\ body_keys b' = []).
  { right. exists Sample.empty_body. split; reflexivity. }
  split; [exact H|].
  destruct (empty_body_rejected Sample.E Sample.id _ Sample.one H) as [Hpost Hput].
  split; [exact Hpost|]. apply Hput. reflexivity.
Defined.

End Body.

(** ** Repository failures and the status of the answer *)

Section ErrorMapping.

(** C10: when the repository call of the get-by-id, update or delete
    handler throws, the answer is 404 with the not-found envelope exactly
    when the message of the error contains "not found"; otherwise it is 500,
    but for the update handler's 400 for its validation matches.  Only the
    text is looked at for the 404: two failures with the same message get the
    same answer from the get and delete handlers, whatever their name, code
    or details are. *)
Theorem not_found_decided_by_message (E : env) (id : jsstring) (w w' : world)
  (e : error) :
  Re.test Restaurant.oid_re id = true ->
  (db.getRestaurantById id w = (Throw e, w') ->
   router.get_one E id w =
     (Return (if Js.includes (e_message e) (lit "not found")
              then router.not_found id
              else server_error E
                     (lit "Internal server error while fetching restaurant") e),
      w'))
  /\ (db.deleteRestaurantById id w = (Throw e, w') ->
      router.delete_one E id w =
        (Return (if Js.includes (e_message e) (lit "not found")
                 then router.not_found id
                 else server_error E
                        (lit "Internal server error while deleting restaurant") e),
         w'))
  /\ (forall b, router.body_missing b = false ->
      db.updateRestaurantById b id w = (Throw e, w') ->
      router.put_one E id b w =
        (Return (if Js.includes (e_message e) (lit "not found")
                 then router.not_found id
                 else if Js.includes (e_message e) (lit "validation")
                         || Js.includes (e_message e) (lit "required")
                         || Js.eqb (e_name e) (lit "ValidationError")
                 then failure 400 (lit "Validation error: " ++ e_message e)
                 else server_error E
                        (lit "Internal server error while updating restaurant") e),
         w'))
  /\ (forall e2 w2 w2', e_message e2 = e_message e ->
      (db.getRestaurantById id w = (Throw e, w') ->
       db.getRestaurantById id w2 = (Throw e2, w2') ->
       fst (router.get_one E id w2) = fst (router.get_one E id w))
      /\ (db.deleteRestaurantById id w = (Throw e, w') ->
          db.deleteRestaurantById id w2 = (Throw e2, w2') ->
          fst (router.delete_one E id w2) = fst (router.delete_one E id w)))
  /\ status (router.not_found id) = 404
  /\ (forall msg, status (server_error E msg e) = 500).
Proof.
  intros Hre.
  assert (Get : forall x v v', db.getRestaurantById id v = (Throw x, v') ->
                  router.get_one E id v =
                  (Return (if Js.includes (e_message x) (lit "not found")
                           then router.not_found id
                           else server_error E
                                  (lit "Internal server error while fetching restaurant")
                                  x), v')).
  { intros x v v' H. unfold router.get_one, try_catch. rewrite Hre.
    cbn [negb]. unfold bind. rewrite H. unfold router.message_includes.
    destruct (Js.includes _ _); reflexivity. }
  assert (Del : forall x v v', db.deleteRestaurantById id v = (Throw x, v') ->
                  router.delete_one E id v =
                  (Return (if Js.includes (e_message x) (lit "not found")
                           then router.not_found id
                           else server_error E
                                  (lit "Internal server error while deleting restaurant")
                                  x), v')).
  { intros x v v' H. unfold router.delete_one, try_catch. rewrite Hre.
    cbn [negb]. unfold bind. rewrite H. unfold router.message_includes.
    destruct (Js.includes _ _); reflexivity. }
  split; [apply Get|]. split; [apply Del|]. split.
  { intros b Hb H. unfold router.put_one, try_catch. rewrite Hre, Hb.
    cbn [negb]. unfold bind. rewrite H. unfold router.message_includes.
    destruct (Js.includes (e_message e) (lit "not found")); [reflexivity|].
    destruct (_ || _); reflexivity. }
  split.
  { intros e2 w2 w2' Hmsg. split; intros H H2.
    - rewrite (Get _ _ _ H), (Get _ _ _ H2), Hmsg. cbn [fst].
      destruct (Js.includes _ _); [reflexivity|].
      unfold server_error. now rewrite Hmsg.
    - rewrite (Del _ _ _ H), (Del _ _ _ H2), Hmsg. cbn [fst].
      destruct (Js.includes _ _); [reflexivity|].
      unfold server_error. now rewrite Hmsg. }
  split; reflexivity.
Qed.

(** While the storage engine cannot be reached, the failure of the driver,
    wrapped by the repository, still reads "... host not found": the stored
    restaurant is reported as not found. *)
Lemma not_found_decided_by_message_example :
  let e := Error (lit "Database error while fetching restaurant: getaddrinfo ENOTFOUND: host not found") in
  let w' := logged (Call_getRestaurantById Sample.id) Sample.outage in
  Re.test Restaurant.oid_re Sample.id = true
  /\ is_Some (store Sample.outage !! Restaurant.hex_value Sample.id)
  /\ db.getRestaurantById Sample.id Sample.outage = (Throw e, w')
  /\ router.get_one Sample.E Sample.id Sample.outage =
     (Return (router.not_found Sample.id), w').
Proof.
  intros e w'.
  assert (H1 : Re.test Restaurant.oid_re Sample.id = true) by reflexivity.
  assert (H2 : db.getRestaurantById Sample.id Sample.outage = (Throw e, w'))
    by (vm_compute; reflexivity).
  split; [exact H1|]. split; [eexists; reflexivity|]. split; [exact H2|].
  exact (proj1 (not_found_decided_by_message Sample.E Sample.id Sample.outage w' e H1)
           H2).
Defined.

End ErrorMapping.

(** ** Field-level violations on create and update *)

Section Violations.

(** The repository reports every violated path: its error joins the
    messages of all of them. *)
Lemma addNewRestaurant_aggregates (d : body) (w : world) :
  Schema.validate (Schema.cast d) <> [] ->
  db.addNewRestaurant (Some d) w =
  (Throw (Error (lit "Validation failed: "
                 ++ Js.join (lit ", ") (map snd (Schema.validate (Schema.cast d))))),
   logged (Call_addNewRestaurant (Some d)) w).
Proof.
  intros H. unfold db.addNewRestaurant, bind, log, try_catch, Restaurant.save.
  destruct (Schema.validate (Schema.cast d)) as [|x errs]; [congruence|].
  reflexivity.
Qed.

Lemma updateRestaurantById_aggregates (d : body) (id : jsstring) (w : world) :
  Re.test Restaurant.oid_re id = true ->
  Schema.validate (Schema.cast d) <> [] ->
  db.updateRestaurantById (Some d) id w =
  (Throw (Error (lit "Validation failed: "
                 ++ Js.join (lit ", ") (map snd (Schema.validate (Schema.cast d))))),
   logged (Call_updateRestaurantById (Some d) id) w).
Proof.
  intros Hre H. destruct (oid_nonempty id Hre) as (c & s & ->).
  unfold db.updateRestaurantById, bind, log, try_catch. cbv beta iota.
  unfold Restaurant.findByIdAndUpdate, Restaurant.cast_oid. rewrite Hre.
  destruct (Schema.validate (Schema.cast d)) as [|x errs]; [congruence|].
  reflexivity.
Qed.

Lemma aggregate_names_each (errs : list (string * jsstring)) (pth : string)
  (msg : jsstring) :
  In (pth, msg) errs ->
  Js.includes (lit "Validation failed: " ++ Js.join (lit ", ") (map snd errs)) msg
  = true.
Proof.
  intros H. apply includes_app_r, includes_join.
  apply (in_map snd _ (pth, msg)), H.
Qed.

(** A record without a name and with a malformed phone number: both
    messages are reported, with status 400. *)
Lemma two_violations_reported :
  router.post_one Sample.E (Some Sample.no_name_bad_phone) Sample.empty =
  (Return (failure 400
     (lit "Validation error: Validation failed: Restaurant name is required, Phone number must be in format (XXX) XXX-XXXX")),
   logged (Call_addNewRestaurant (Some Sample.no_name_bad_phone)) Sample.empty).
Proof. vm_compute. reflexivity. Qed.

(** C8 fails on the code: a record whose only violation is the format of
    the phone number is answered 500, by POST and by PUT.  The repository
    rethrows the validation error as a plain [Error] whose message starts
    with "Validation failed", and the handlers look for the name
    [ValidationError] and for the lower-case words "validation" and
    "required", none of which is there. *)
Theorem validation_failure_answered_500 :
  let e := Error (lit "Validation failed: Phone number must be in format (XXX) XXX-XXXX") in
  Schema.validate (Schema.cast Sample.bad_phone) =
    [("phone", lit "Phone number must be in format (XXX) XXX-XXXX")]
  /\ router.post_one Sample.E (Some Sample.bad_phone) Sample.empty =
     (Return (server_error Sample.E
                (lit "Internal server error while creating restaurant") e),
      logged (Call_addNewRestaurant (Some Sample.bad_phone)) Sample.empty)
  /\ router.put_one Sample.E Sample.id (Some Sample.bad_phone) Sample.one =
     (Return (server_error Sample.E
                (lit "Internal server error while updating restaurant") e),
      logged (Call_updateRestaurantById (Some Sample.bad_phone) Sample.id) Sample.one)
  /\ status (server_error Sample.E
               (lit "Internal server error while creating restaurant") e) = 500
  /\ router.message_includes e "validation" = false
  /\ router.message_includes e "required" = false
  /\ Js.eqb (e_name e) (lit "ValidationError") = false.
Proof.
  intros e. split; [vm_compute; reflexivity|].
  split; [vm_compute; reflexivity|]. split; [vm_compute; reflexivity|].
  repeat split; vm_compute; reflexivity.
Qed.

(** The scenario of the specification, [cuisine: "Klingon"], is answered 500
    for the same reason. *)
Lemma klingon_cuisine_answered_500 :
  router.post_one Sample.E (Some Sample.klingon) Sample.empty =
  (Return (server_error Sample.E
             (lit "Internal server error while creating restaurant")
             (Error (lit "Validation failed: `Klingon` is not a valid enum value for path `cuisine`."))),
   logged (Call_addNewRestaurant (Some Sample.klingon)) Sample.empty).
Proof. vm_compute. reflexivity. Qed.

End Violations.

(** * Further properties of the code *)

(** ** Numbers rendered and parsed again *)

Section RenderParse.

Lemma digit_char (n : N) : Js.is_digit (48 + n mod 10) = true.
Proof.
  unfold Js.is_digit.
  assert (H : (n mod 10 < 10)%N) by (apply N.mod_lt; lia).
  revert H. generalize (n mod 10)%N. intros r H.
  apply andb_true_iff. split; apply N.leb_le; lia.
Qed.

Lemma pos_digits_head (f : nat) (n : N) (acc : jsstring) :
  exists c t, Js.pos_digits (S f) n acc = c :: t /\ Js.is_digit c = true.
Proof.
  revert n acc; induction f as [|f IH]; intros n acc; cbn [Js.pos_digits].
  - destruct (n <? 10)%N; eauto using digit_char.
  - destruct (n <? 10)%N; [eauto using digit_char|]. apply IH.
Qed.

Lemma pos_digits_value (f : nat) (n : N) (acc : jsstring) :
  (n < 10 ^ N.of_nat f)%N ->
  exists k : Z, 0 <= k /\ forall a,
    Js.digits a (Js.pos_digits f n acc) = Js.digits (a * 10 ^ k + Z.of_N n) acc.
Proof.
  revert n acc; induction f as [|f IH]; intros n acc Hn.
  - exists 0. split; [lia|]. intros a. cbn [Js.pos_digits].
    change (10 ^ N.of_nat 0)%N with 1%N in Hn. f_equal. lia.
  - cbn [Js.pos_digits]. destruct (N.ltb_spec n 10) as [Hlt|Hge].
    + exists 1. split; [lia|]. intros a. cbn [Js.digits].
      rewrite digit_char. f_equal. rewrite N.mod_small by assumption.
      rewrite Z.pow_1_r. lia.
    + assert (Hdiv : (n / 10 < 10 ^ N.of_nat f)%N).
      { apply N.Div0.div_lt_upper_bound.
        rewrite Nat2N.inj_succ, N.pow_succ_r' in Hn. exact Hn. }
      destruct (IH (n / 10)%N ((48 + n mod 10)%N :: acc) Hdiv) as (k & Hk & Hval).
      exists (k + 1). split; [lia|]. intros a. rewrite Hval. cbn [Js.digits].
      rewrite digit_char. f_equal.
      rewrite Z.pow_add_r, Z.pow_1_r by lia.
      assert (Hdm : n = (10 * (n / 10) + n mod 10)%N) by (apply N.div_mod; lia).
      revert Hdm. generalize (n / 10)%N (n mod 10)%N. intros q r Hdm.
      lia.
Qed.

(** [parseInt(String(z), 10)] is [z], for every integer. *)
Lemma parseInt10_of_Z (z : Z) : Js.parseInt10 (Js.of_Z z) = Js.Num z.
Proof.
  unfold Js.of_Z.
  set (n := Z.to_N (Z.abs z)). set (f := N.to_nat (N.log2 n)).
  assert (Hn : (n < 10 ^ N.of_nat (S f))%N).
  { unfold f. rewrite Nat2N.inj_succ, N2Nat.id.
    apply N.lt_le_trans with (2 ^ N.succ (N.log2 n))%N.
    - destruct (N.eq_dec n 0%N) as [->|Hne]; [reflexivity|].
      apply N.log2_spec. lia.
    - apply N.pow_le_mono_l. lia. }
  destruct (pos_digits_head f n []) as (c & t & Hd & Hc).
  destruct (pos_digits_value (S f) n [] Hn) as (k & _ & Hval).
  specialize (Hval 0). cbn [Js.digits] in Hval. rewrite Hd in Hval.
  destruct (digit_not_sign c Hc) as [H45 H43].
  destruct (Z.ltb_spec z 0) as [Hneg|Hpos].
  - rewrite Hd. unfold Js.parseInt10.
    change (Js.trimStart (45%N :: c :: t)) with (45%N :: c :: t).
    cbn [N.eqb Pos.eqb]. rewrite Hc, Hval. f_equal. lia.
  - rewrite Hd. unfold Js.parseInt10. cbn [Js.trimStart].
    rewrite (digit_not_space c Hc), H45, H43, Hc, Hval. f_equal. lia.
Qed.

Lemma parseInt_num_Num (z : Z) : db.parseInt_num (Js.Num z) = Js.Num z.
Proof. apply parseInt10_of_Z. Qed.

End RenderParse.

(** ** The repository's paged find, in all its cases *)

Section PagedFindCases.

Lemma getAllRestaurants_cases (E : env) (page perPage : Js.num)
  (b : option jsstring) (w : world) :
  let or_default (d : Z) (n : Js.num) :=
    match n with
    | Js.NaN => d
    | Js.Num z => if z =? 0 then d else z
    end in
  let pageNum := or_default 1 page in
  let limitNum := or_default 10 perPage in
  db.getAllRestaurants E page perPage b w =
  (if pageNum <? 1 then
     Throw (Error (lit "Database error while fetching restaurants: Page number must be greater than 0"))
   else if (limitNum <? 1) || (100 <? limitNum) then
     Throw (Error (lit "Database error while fetching restaurants: Items per page must be between 1 and 100"))
   else
     match fault w with
     | Some e =>
         Throw (Error (lit "Database error while fetching restaurants: " ++ e_message e))
     | None =>
         Return (take (Z.to_nat limitNum)
                   (drop (Z.to_nat ((pageNum - 1) * limitNum))
                      (matching_entities E b w)))
     end,
   logged (Call_getAllRestaurants page perPage b) w).
Proof.
  intros or_default pageNum limitNum.
  unfold db.getAllRestaurants, bind, log, try_catch.
  assert (Hp : Js.or_default (db.parseInt_num page) (Js.Num 1) = Js.Num pageNum).
  { destruct page as [|z]; [reflexivity|]. rewrite parseInt_num_Num.
    unfold pageNum, or_default, Js.or_default. now destruct (z =? 0). }
  assert (Hl : Js.or_default (db.parseInt_num perPage) (Js.Num 10) = Js.Num limitNum).
  { destruct perPage as [|z]; [reflexivity|]. rewrite parseInt_num_Num.
    unfold limitNum, or_default, Js.or_default. now destruct (z =? 0). }
  rewrite Hp, Hl. unfold Js.gt, Js.lt.
  clearbody pageNum limitNum. clear Hp Hl or_default.
  destruct (pageNum <? 1); [reflexivity|].
  destruct ((limitNum <? 1) || (100 <? limitNum)); [reflexivity|].
  unfold Restaurant.find_sort_skip_limit, bind, round_trip, get_world, ret.
  destruct w as [st nx fl cl]. cbv beta iota delta [fault store next_oid calls].
  destruct fl; reflexivity.
Qed.



Lemma matching_sorted (E : env) (b : option jsstring) (w : world) :
  StronglySorted Restaurant.id_le (matching_entities E b w)
  /\ NoDup (matching_entities E b w).
Proof.
  destruct (selected_sorted E
              match b with
              | Some (c :: s) => Restaurant.Or_borough_regex_i (c :: s)
              | _ => Restaurant.All
              end w) as (H1 & H2 & _).
  split; assumption.
Qed.

Lemma logged_same_store (c : call) (w : world) :
  store (logged c w) = store w /\ fault (logged c w) = fault w.
Proof. split; reflexivity. Qed.

Lemma matching_logged (E : env) (b : option jsstring) (c : call) (w : world) :
  matching_entities E b (logged c w) = matching_entities E b w.
Proof. reflexivity. Qed.

(** X2: with no write in between, two consecutive pages are two consecutive
    slices of the same ordered list: together they have no duplicate, are in
    ascending order of identifier, and, when the first has an odd number
    [2j - 1], are exactly page [j] for twice the page size. *)
Theorem consecutive_pages (E : env) (w : world) (p m : Z) (b : option jsstring) :
  fault w = None ->
  1 <= p <= 10000 ->
  1 <= m <= 100 ->
  exists (l1 l2 : list entity) (w1 w2 : world),
    db.getAllRestaurants E (Js.Num p) (Js.Num m) b w = (Return l1, w1)
    /\ db.getAllRestaurants E (Js.Num (p + 1)) (Js.Num m) b w1 = (Return l2, w2)
    /\ store w2 = store w
    /\ l1 ++ l2 =
       take (Z.to_nat (2 * m))
         (drop (Z.to_nat ((p - 1) * m)) (matching_entities E b w))
    /\ NoDup (l1 ++ l2)
    /\ StronglySorted Restaurant.id_le (l1 ++ l2)
    /\ (forall j, p = 2 * j - 1 -> 2 * m <= 100 ->
          fst (db.getAllRestaurants E (Js.Num j) (Js.Num (2 * m)) b w2)
          = Return (l1 ++ l2)).
Proof.
  intros Hf Hp Hm.
  pose proof (getAllRestaurants_cases E (Js.Num p) (Js.Num m) b w) as H1.
  cbv beta iota zeta in H1.
  replace (p =? 0) with false in H1 by (symmetry; apply Z.eqb_neq; lia).
  replace (m =? 0) with false in H1 by (symmetry; apply Z.eqb_neq; lia).
  replace (p <? 1) with false in H1 by (symmetry; apply Z.ltb_ge; lia).
  replace (m <? 1) with false in H1 by (symmetry; apply Z.ltb_ge; lia).
  replace (100 <? m) with false in H1 by (symmetry; apply Z.ltb_ge; lia).
  cbn [orb] in H1. rewrite Hf in H1.
  set (w1 := logged (Call_getAllRestaurants (Js.Num p) (Js.Num m) b) w) in *.
  pose proof (getAllRestaurants_cases E (Js.Num (p + 1)) (Js.Num m) b w1) as H2.
  cbv beta iota zeta in H2.
  replace (p + 1 =? 0) with false in H2 by (symmetry; apply Z.eqb_neq; lia).
  replace (m =? 0) with false in H2 by (symmetry; apply Z.eqb_neq; lia).
  replace (p + 1 <? 1) with false in H2 by (symmetry; apply Z.ltb_ge; lia).
  replace (m <? 1) with false in H2 by (symmetry; apply Z.ltb_ge; lia).
  replace (100 <? m) with false in H2 by (symmetry; apply Z.ltb_ge; lia).
  cbn [orb] in H2.
  change (fault w1) with (fault w) in H2. rewrite Hf in H2.
  change (matching_entities E b w1) with (matching_entities E b w) in H2.
  set (found := matching_entities E b w) in *.
  assert (Hcat : take (Z.to_nat m) (drop (Z.to_nat ((p - 1) * m)) found)
                 ++ take (Z.to_nat m) (drop (Z.to_nat ((p + 1 - 1) * m)) found)
                 = take (Z.to_nat (2 * m)) (drop (Z.to_nat ((p - 1) * m)) found)).
  { replace (Z.to_nat ((p + 1 - 1) * m))
      with (Z.to_nat ((p - 1) * m) + Z.to_nat m)%nat by nia.
    rewrite <- drop_drop, take_take_drop. f_equal. lia. }
  destruct (matching_sorted E b w) as [Hsorted Hnodup]. fold found in Hsorted, Hnodup.
  assert (Hsub : take (Z.to_nat (2 * m)) (drop (Z.to_nat ((p - 1) * m)) found)
                 `sublist_of` found).
  { etransitivity; [apply sublist_take|apply sublist_drop]. }
  eexists _, _, w1, _. split; [exact H1|]. split; [exact H2|].
  split; [reflexivity|]. split; [exact Hcat|]. rewrite Hcat.
  split; [eapply sublist_NoDup; eassumption|]. split.
  - rewrite <- (take_drop (Z.to_nat ((p - 1) * m)) found) in Hsorted.
    apply StronglySorted_app_1_r in Hsorted.
    rewrite <- (take_drop (Z.to_nat (2 * m)) (drop _ found)) in Hsorted.
    now apply StronglySorted_app_1_l in Hsorted.
  - intros j Hj H2m. rewrite getAllRestaurants_cases. cbv beta iota zeta. cbn [fst].
    replace (j =? 0) with false by (symmetry; apply Z.eqb_neq; lia).
    replace (2 * m =? 0) with false by (symmetry; apply Z.eqb_neq; lia).
    replace (j <? 1) with false by (symmetry; apply Z.ltb_ge; lia).
    replace (2 * m <? 1) with false by (symmetry; apply Z.ltb_ge; lia).
    replace (100 <? 2 * m) with false by (symmetry; apply Z.ltb_ge; lia).
    cbn [orb]. change (fault _) with (fault w). rewrite Hf.
    change (matching_entities E b _) with found.
    do 3 f_equal. nia.
Qed.

Lemma consecutive_pages_example :
  fault Sample.one = None /\ 1 <= 1 <= 10000 /\ 1 <= 2 <= 100
  /\ exists l1 l2 w1 w2,
       db.getAllRestaurants Sample.E (Js.Num 1) (Js.Num 2) None Sample.one
         = (Return l1, w1)
       /\ db.getAllRestaurants Sample.E (Js.Num 2) (Js.Num 2) None w1
         = (Return l2, w2)
       /\ fst (db.getAllRestaurants Sample.E (Js.Num 1) (Js.Num 4) None w2)
         = Return (l1 ++ l2).
Proof.
  assert (H1 : fault Sample.one = None) by reflexivity.
  assert (H2 : 1 <= 1 <= 10000) by lia. assert (H3 : 1 <= 2 <= 100) by lia.
  split; [exact H1|]. split; [exact H2|]. split; [exact H3|].
  destruct (consecutive_pages Sample.E Sample.one 1 2 None H1 H2 H3)
    as (l1 & l2 & w1 & w2 & Ha & Hb & _ & _ & _ & _ & Hj).
  exists l1, l2, w1, w2. split; [exact Ha|]. split; [exact Hb|].
  apply (Hj 1); lia.
Defined.

End PagedFindCases.

(** ** [hasMore] *)

Section HasMore.

Lemma getAllRestaurants_valid (E : env) (w : world) (p m : Z) (b : option jsstring) :
  fault w = None ->
  1 <= p ->
  1 <= m <= 100 ->
  db.getAllRestaurants E (Js.Num p) (Js.Num m) b w =
  (Return (take (Z.to_nat m)
             (drop (Z.to_nat ((p - 1) * m)) (matching_entities E b w))),
   logged (Call_getAllRestaurants (Js.Num p) (Js.Num m) b) w).
Proof.
  intros Hf Hp Hm. rewrite getAllRestaurants_cases. cbv beta iota zeta.
  replace (p =? 0) with false by (symmetry; apply Z.eqb_neq; lia).
  replace (m =? 0) with false by (symmetry; apply Z.eqb_neq; lia).
  replace (p <? 1) with false by (symmetry; apply Z.ltb_ge; lia).
  replace (m <? 1) with false by (symmetry; apply Z.ltb_ge; lia).
  replace (100 <? m) with false by (symmetry; apply Z.ltb_ge; lia).
  cbn [orb]. now rewrite Hf.
Qed.

Lemma page_empty_iff (l : list entity) (k m : nat) :
  (1 <= m)%nat -> take m (drop k l) = [] <-> (length l <= k)%nat.
Proof.
  intros Hm. split.
  - intros H. apply (f_equal length) in H. rewrite length_take, length_drop in H.
    cbn [length] in H. lia.
  - intros H. rewrite drop_ge by assumption. apply take_nil.
Qed.

(** X3: [hasMore] only says that the page is full.  For a valid list request
    on a healthy store, [hasMore] is true exactly when at least [page *
    perPage] entities match; the following page is empty exactly when at
    most that many match.  So when exactly [page * perPage] entities match,
    [hasMore] is true and the following page is empty. *)
Theorem hasMore_full_page (E : env) (q : query) (w : world) (p m : Z)
  (b : option jsstring) :
  fault w = None ->
  rest_keys router.allowedParams q = [] ->
  router.check_page (prop "page" q) = inr (Js.Num p) ->
  router.check_perPage (prop "perPage" q) = inr (Js.Num m) ->
  router.check_borough (prop "borough" q) = inr b ->
  let found := matching_entities E b w in
  let data := take (Z.to_nat m) (drop (Z.to_nat ((p - 1) * m)) found) in
  router.get_all E q w =
    (Return (router.list_envelope data (Js.Num p) (Js.Num m) b),
     logged (Call_getAllRestaurants (Js.Num p) (Js.Num m) b) w)
  /\ response_field "pagination" (router.list_envelope data (Js.Num p) (Js.Num m) b) =
     Some (JObj [("page", JNum (Js.Num p)); ("perPage", JNum (Js.Num m));
                 ("totalReturned", JNum (Js.Num (Z.of_nat (length data))));
                 ("hasMore", JBool (p * m <=? Z.of_nat (length found)))])
  /\ (fst (db.getAllRestaurants E (Js.Num (p + 1)) (Js.Num m) b w) = Return []
      <-> Z.of_nat (length found) <= p * m).
Proof.
  intros Hf Hextra Hp Hm Hb found data.
  destruct (check_page_range _ _ Hp) as (p' & Hp' & Hpr). injection Hp' as <-.
  destruct (check_perPage_range _ _ Hm) as (m' & Hm' & Hmr). injection Hm' as <-.
  split; [|split].
  - rewrite get_all_steps, (check_extra_passes q Hextra), Hp, Hm, Hb.
    unfold fetch_page, try_catch, bind.
    rewrite getAllRestaurants_valid by (assumption || lia). reflexivity.
  - unfold router.list_envelope, response_field. cbn. do 5 f_equal.
    unfold data. rewrite length_take, length_drop. fold found.
    destruct (Z.leb_spec (p * m) (Z.of_nat (length found)));
      do 3 f_equal; [apply Z.eqb_eq|apply Z.eqb_neq]; nia.
  - rewrite getAllRestaurants_valid by (assumption || lia). cbn [fst].
    fold found. split.
    + intros H. injection H as H. apply page_empty_iff in H; [nia|lia].
    + intros H. f_equal. apply page_empty_iff; [lia|nia].
Qed.

(** One stored restaurant and [?perPage=1]: the page is full, [hasMore] is
    true, and page 2 is empty. *)
Lemma hasMore_full_page_example :
  let q := [(lit "perPage", QStr (lit "1"))] in
  fault Sample.one = None
  /\ rest_keys router.allowedParams q = []
  /\ router.check_page (prop "page" q) = inr (Js.Num 1)
  /\ router.check_perPage (prop "perPage" q) = inr (Js.Num 1)
  /\ router.check_borough (prop "borough" q) = inr None
  /\ fst (db.getAllRestaurants Sample.E (Js.Num 2) (Js.Num 1) None Sample.one)
     = Return [].
Proof.
  intros q.
  assert (H1 : fault Sample.one = None) by reflexivity.
  assert (H2 : rest_keys router.allowedParams q = []) by reflexivity.
  assert (H3 : router.check_page (prop "page" q) = inr (Js.Num 1)) by reflexivity.
  assert (H4 : router.check_perPage (prop "perPage" q) = inr (Js.Num 1))
    by reflexivity.
  assert (H5 : router.check_borough (prop "borough" q) = inr None) by reflexivity.
  repeat (split; [assumption|]).
  destruct (hasMore_full_page Sample.E q Sample.one 1 1 None H1 H2 H3 H4 H5)
    as (_ & _ & Hnext).
  apply Hnext. vm_compute. discriminate.
Defined.

End HasMore.

(** ** The repository, operation by operation *)

Section RepositoryCases.

Ltac open_world w :=
  destruct w as [st nx fl cl];
  cbv beta iota delta [fault store next_oid calls bind log try_catch round_trip
                         get_world set_store bump_oid ret throw logged written].

Lemma addNewRestaurant_cases (d : body) (w : world) :
  db.addNewRestaurant (Some d) w =
  match Schema.validate (Schema.cast d) with
  | _ :: _ =>
      (Throw (Error (lit "Validation failed: "
                     ++ Js.join (lit ", ") (map snd (Schema.validate (Schema.cast d))))),
       logged (Call_addNewRestaurant (Some d)) w)
  | [] =>
      match fault w with
      | Some e => (Throw (rethrown_by_add e), logged (Call_addNewRestaurant (Some d)) w)
      | None =>
          match store w !! next_oid w with
          | Some _ =>
              (Throw (Error (lit "Duplicate restaurant data detected")),
               logged (Call_addNewRestaurant (Some d)) w)
          | None =>
              (Return (next_oid w, Schema.build (Schema.cast d)),
               written (Call_addNewRestaurant (Some d))
                 (<[next_oid w := Schema.build (Schema.cast d)]> (store w)) 1 w)
          end
      end
  end.
Proof.
  destruct (Schema.validate (Schema.cast d)) as [|x errs] eqn:Hv.
  - unfold db.addNewRestaurant, Restaurant.save. rewrite Hv. open_world w.
    destruct fl as [e|].
    + unfold rethrown_by_add. destruct (Js.eqb (e_name e) _); [reflexivity|].
      destruct (db.code_is e 11000); reflexivity.
    + destruct (st !! nx); [reflexivity|]. now rewrite N.add_1_r.
  - rewrite <- Hv. apply addNewRestaurant_aggregates. rewrite Hv. discriminate.
Qed.

Lemma getRestaurantById_cases (id : jsstring) (w : world) :
  Re.test Restaurant.oid_re id = true ->
  db.getRestaurantById id w =
  (match fault w with
   | Some e => Throw (rethrown_by_get e)
   | None =>
       match store w !! Restaurant.hex_value id with
       | Some r => Return (Restaurant.hex_value id, r)
       | None => Throw (Error (lit "Restaurant not found"))
       end
   end,
   logged (Call_getRestaurantById id) w).
Proof.
  intros Hre. destruct (oid_nonempty id Hre) as (c & s & ->).
  unfold db.getRestaurantById, Restaurant.findById, Restaurant.cast_oid.
  rewrite Hre. open_world w. destruct fl as [e|].
  - unfold rethrown_by_get. destruct (Js.eqb (e_message e) _); [reflexivity|].
    destruct (Js.eqb (e_name e) _); reflexivity.
  - destruct (st !! _); reflexivity.
Qed.



End RepositoryCases.

(** ** The item handlers, case by case *)

Section HandlerCases.

Lemma get_one_run (E : env) (id : jsstring) (w : world) :
  router.get_one E id w =
  if Re.test Restaurant.oid_re id then
    match db.getRestaurantById id w with
    | (Return r, w') => (Return (router.item_envelope 200 r None), w')
    | (Throw e, w') =>
        (Return (if router.message_includes e "not found" then router.not_found id
                 else server_error E
                        (lit "Internal server error while fetching restaurant") e),
         w')
    end
  else (Return (failure 400 (lit "Invalid restaurant ID format")), w).
Proof.
  unfold router.get_one, try_catch. destruct (Re.test _ id); [|reflexivity].
  cbn [negb]. unfold bind. destruct (db.getRestaurantById id w) as [[r|e] w'].
  - reflexivity.
  - destruct (router.message_includes e "not found"); reflexivity.
Qed.

Lemma post_one_run (E : env) (b : option body) (w : world) :
  router.post_one E b w =
  if router.body_missing b then
    (Return (failure 400 (lit "Request body is required to create a restaurant")), w)
  else
    match db.addNewRestaurant b w with
    | (Return r, w') =>
        (Return (router.item_envelope 201 r (Some "Restaurant created successfully")),
         w')
    | (Throw e, w') =>
        (Return (if router.message_includes e "validation"
                    || router.message_includes e "required"
                    || router.message_includes e "duplicate"
                    || Js.eqb (e_name e) (lit "ValidationError")
                 then failure 400 (lit "Validation error: " ++ e_message e)
                 else if db.code_is e 11000
                 then failure 400 (lit "Restaurant with this information already exists")
                 else server_error E
                        (lit "Internal server error while creating restaurant") e),
         w')
    end.
Proof.
  unfold router.post_one, try_catch. destruct (router.body_missing b); [reflexivity|].
  unfold bind. destruct (db.addNewRestaurant b w) as [[r|e] w']; [reflexivity|].
  destruct (_ || _); [reflexivity|]. destruct (db.code_is e 11000); reflexivity.
Qed.

Lemma put_one_run (E : env) (id : jsstring) (b : option body) (w : world) :
  router.put_one E id b w =
  if Re.test Restaurant.oid_re id then
    if router.body_missing b then
      (Return (failure 400 (lit "Request body is required to update a restaurant")), w)
    else
      match db.updateRestaurantById b id w with
      | (Return r, w') =>
          (Return (router.item_envelope 200 r (Some "Restaurant updated successfully")),
           w')
      | (Throw e, w') =>
          (Return (if router.message_includes e "not found" then router.not_found id
                   else if router.message_includes e "validation"
                           || router.message_includes e "required"
                           || Js.eqb (e_name e) (lit "ValidationError")
                   then failure 400 (lit "Validation error: " ++ e_message e)
                   else server_error E
                          (lit "Internal server error while updating restaurant") e),
           w')
      end
  else (Return (failure 400 (lit "Invalid restaurant ID format")), w).
Proof.
  unfold router.put_one, try_catch. destruct (Re.test _ id); [|reflexivity].
  cbn [negb]. destruct (router.body_missing b); [reflexivity|].
  unfold bind. destruct (db.updateRestaurantById b id w) as [[r|e] w']; [reflexivity|].
  destruct (router.message_includes e "not found"); [reflexivity|].
  destruct (_ || _); reflexivity.
Qed.

Lemma delete_one_run (E : env) (id : jsstring) (w : world) :
  router.delete_one E id w =
  if Re.test Restaurant.oid_re id then
    match db.deleteRestaurantById id w with
    | (Return r, w') => (Return {| status := 204; payload := None |}, w')
    | (Throw e, w') =>
        (Return (if router.message_includes e "not found" then router.not_found id
                 else server_error E
                        (lit "Internal server error while deleting restaurant") e),
         w')
    end
  else (Return (failure 400 (lit "Invalid restaurant ID format")), w).
Proof.
  unfold router.delete_one, try_catch. destruct (Re.test _ id); [|reflexivity].
  cbn [negb]. unfold bind. destruct (db.deleteRestaurantById id w) as [[r|e] w'].
  - reflexivity.
  - destruct (router.message_includes e "not found"); reflexivity.
Qed.

(** A record that passes the field rules has a name, so it is not an empty
    body. *)
Lemma required_present (pth msg : string) (rest : list Schema.validator)
  (v : option jsstring) :
  Schema.first_error pth (Schema.required msg :: rest) v = None ->
  exists c s, v = Some (c :: s).
Proof. destruct v as [[|c s]|]; try discriminate. eauto. Qed.

Lemma validate_name (doc : body) :
  Schema.validate doc = [] ->
  exists c s, b_name doc = Some (c :: s) /\ (length (c :: s) <= 100)%nat.
Proof.
  unfold Schema.validate. intros H. apply app_eq_nil in H. destruct H as [H _].
  unfold Schema.validate_path in H.
  destruct (Schema.first_error _ _ (b_name doc)) eqn:X; [discriminate|].
  destruct (required_present _ _ _ _ X) as (c & s & Hv). rewrite Hv in X |- *.
  exists c, s. split; [reflexivity|].
  cbn [Schema.path Schema.validators Schema.p_name Schema.first_error Schema.check] in X.
  destruct (Nat.ltb_spec 100 (length (c :: s))); [discriminate|assumption].
Qed.

Lemma valid_not_missing (d : body) :
  Schema.validate (Schema.cast d) = [] -> router.body_missing (Some d) = false.
Proof.
  intros H. destruct (validate_name _ H) as (c & s & Hn & _).
  unfold Schema.cast in Hn. cbn [b_name] in Hn.
  destruct (b_name d) as [x|] eqn:X; [|discriminate].
  unfold router.body_missing, body_keys. rewrite X. reflexivity.
Qed.

End HandlerCases.

(** ** Reading, creating and replacing one restaurant *)

Section ItemOperations.

Lemma hex_below_128 (c : N) : Js.is_hex c = true -> (c < 128)%N.
Proof.
  unfold Js.is_hex, Js.is_digit. intros H. bool_to_prop.
  repeat match goal with D : _ \/ _ |- _ => destruct D; bool_to_prop end; lia.
Qed.

Lemma hex_lower (c : N) :
  Js.is_hex c = true ->
  Restaurant.hex_digit (Js.lower c) = Restaurant.hex_digit c
  /\ Js.is_hex (Js.lower c) = true.
Proof.
  intros H. pose proof (hex_below_128 c H) as Hlt.
  assert (All : forallb
            (fun n => let x := N.of_nat n in
                      implb (Js.is_hex x)
                        (N.eqb (Restaurant.hex_digit (Js.lower x)) (Restaurant.hex_digit x)
                         && Js.is_hex (Js.lower x)))
            (seq 0 128) = true) by (vm_compute; reflexivity).
  rewrite forallb_forall in All. specialize (All (N.to_nat c)).
  cbv zeta in All. rewrite N2Nat.id, H in All. cbn [implb] in All.
  assert (Hin : In (N.to_nat c) (seq 0 128)) by (apply in_seq; lia).
  apply All in Hin. apply andb_true_iff in Hin. destruct Hin as [H1 H2].
  split; [now apply N.eqb_eq|assumption].
Qed.

(** An ObjectId reads the same in either letter case. *)
Lemma hex_value_lower (id : jsstring) :
  Re.test Restaurant.oid_re id = true ->
  Re.test Restaurant.oid_re (Js.toLowerCase id) = true
  /\ Restaurant.hex_value (Js.toLowerCase id) = Restaurant.hex_value id.
Proof.
  intros H. apply oid_re_spec in H. destruct H as [Hlen Hhex]. split.
  - apply oid_re_spec. unfold Js.toLowerCase. rewrite length_map. split; [assumption|].
    apply List.Forall_map. eapply List.Forall_impl; [|exact Hhex].
    intros c Hc. now apply hex_lower.
  - unfold Restaurant.hex_value, Js.toLowerCase. generalize 0%N as acc.
    clear Hlen. induction Hhex as [|c s Hc Hs IH]; intros acc; [reflexivity|].
    cbn [map fold_left]. rewrite (proj1 (hex_lower c Hc)). apply IH.
Qed.

Lemma get_one_healthy (E : env) (id : jsstring) (w : world) :
  Re.test Restaurant.oid_re id = true ->
  fault w = None ->
  router.get_one E id w =
    (Return match store w !! Restaurant.hex_value id with
            | Some r => router.item_envelope 200 (Restaurant.hex_value id, r) None
            | None => router.not_found id
            end,
     logged (Call_getRestaurantById id) w).
Proof.
  intros Hre Hf. rewrite get_one_run, Hre, (getRestaurantById_cases id w Hre), Hf.
  destruct (store w !! Restaurant.hex_value id); reflexivity.
Qed.



(** X4: on a healthy store, GET of a well-formed id answers 200 with the
    stored document when the id is stored and 404 naming the id when it is
    not; the collection is not changed; and a stored restaurant is found
    under either letter case of its id. *)
Theorem get_one_found_or_404 (E : env) (id : jsstring) (w : world) :
  Re.test Restaurant.oid_re id = true ->
  fault w = None ->
  router.get_one E id w =
    (Return match store w !! Restaurant.hex_value id with
            | Some r => router.item_envelope 200 (Restaurant.hex_value id, r) None
            | None => router.not_found id
            end,
     logged (Call_getRestaurantById id) w)
  /\ (forall r, store w !! Restaurant.hex_value id = Some r ->
        fst (router.get_one E (Js.toLowerCase id) w) = fst (router.get_one E id w)).
Proof.
  intros Hre Hf. split; [now apply get_one_healthy|]. intros r Hr.
  destruct (hex_value_lower id Hre) as [Hre' Hval].
  rewrite (get_one_healthy E _ w Hre' Hf), (get_one_healthy E _ w Hre Hf), Hval, Hr.
  reflexivity.
Qed.

Lemma get_one_found_or_404_example :
  Re.test Restaurant.oid_re Sample.id = true
  /\ fault Sample.empty = None
  /\ router.get_one Sample.E Sample.id Sample.empty =
     (Return (router.not_found Sample.id),
      logged (Call_getRestaurantById Sample.id) Sample.empty).
Proof.
  assert (H1 : Re.test Restaurant.oid_re Sample.id = true) by reflexivity.
  assert (H2 : fault Sample.empty = None) by reflexivity.
  split; [exact H1|]. split; [exact H2|].
  exact (proj1 (get_one_found_or_404 Sample.E Sample.id Sample.empty H1 H2)).
Defined.





End ItemOperations.

(** ** What the handlers always and never do *)

Section Always.

Lemma check_extra_failure (q : query) (r : response) :
  router.check_extra q = inl r -> exists msg, r = failure 400 msg.
Proof.
  unfold router.check_extra. destruct (_ <? _)%nat; [|discriminate].
  intros H. injection H as <-. eauto.
Qed.

Lemma check_page_failure (page : option qval) (r : response) :
  router.check_page page = inl r -> exists msg, r = failure 400 msg.
Proof.
  unfold router.check_page. destruct page; [|discriminate]. intros H.
  repeat match type of H with
    | context [if ?c then _ else _] => destruct c
    end; try discriminate H; injection H as <-; eauto.
Qed.

Lemma check_perPage_failure (perPage : option qval) (r : response) :
  router.check_perPage perPage = inl r -> exists msg, r = failure 400 msg.
Proof.
  unfold router.check_perPage. destruct perPage; [|discriminate]. intros H.
  repeat match type of H with
    | context [if ?c then _ else _] => destruct c
    end; try discriminate H; injection H as <-; eauto.
Qed.

Lemma check_borough_failure (borough : option qval) (r : response) :
  router.check_borough borough = inl r -> exists msg, r = failure 400 msg.
Proof.
  unfold router.check_borough. destruct borough as [[s|l|f]|]; intros H;
    try discriminate H; try (injection H as <-; eauto; fail).
  repeat match type of H with
    | context [if ?c then _ else _] => destruct c
    end; try discriminate H; injection H as <-; eauto.
Qed.

Ltac answered :=
  unfold answers; cbn [fst];
  repeat match goal with
    | |- context [if ?c then _ else _] => destruct c eqn:?
    end;
  (split; [cbn; tauto|split; [|split; [discriminate|cbn; discriminate]]]);
  intros Hdev; unfold server_error, response_field; cbn; rewrite ?Hdev; reflexivity.

Lemma failure_answers (allowed : list Z) (E : env) (code : Z) (msg : jsstring)
  (w : world) :
  In code allowed -> code <> 204 ->
  answers allowed E (Return (failure code msg), w).
Proof.
  intros Hin Hne. unfold answers. cbn. split; [assumption|].
  split; [reflexivity|]. split; [discriminate|tauto].
Qed.

(** X10: every handler of the API answers, whatever the request and the
    state of the store: no exception leaves it.  The status is one of the
    handler's own (200, 400, 500 for the list; 200, 400, 404, 500 for get and
    put; 201, 400, 500 for post; 204, 400, 404, 500 for delete), only a 204
    has no body, and outside development mode no answer has an [error]
    field. *)
Theorem handlers_always_answer (E : env) (q : query) (id : jsstring)
  (b : option body) (w : world) :
  answers [200; 400; 500] E (router.get_all E q w)
  /\ answers [200; 400; 404; 500] E (router.get_one E id w)
  /\ answers [201; 400; 500] E (router.post_one E b w)
  /\ answers [200; 400; 404; 500] E (router.put_one E id b w)
  /\ answers [204; 400; 404; 500] E (router.delete_one E id w).
Proof.
  split; [|split; [|split; [|split]]].
  - rewrite get_all_steps.
    destruct (router.check_extra q) as [r|[]] eqn:H0.
    { destruct (check_extra_failure _ _ H0) as [m ->].
      apply failure_answers; cbn; [tauto|discriminate]. }
    destruct (router.check_page _) as [r|p] eqn:H1.
    { destruct (check_page_failure _ _ H1) as [m ->].
      apply failure_answers; cbn; [tauto|discriminate]. }
    destruct (router.check_perPage _) as [r|pp] eqn:H2.
    { destruct (check_perPage_failure _ _ H2) as [m ->].
      apply failure_answers; cbn; [tauto|discriminate]. }
    destruct (router.check_borough _) as [r|bf] eqn:H3.
    { destruct (check_borough_failure _ _ H3) as [m ->].
      apply failure_answers; cbn; [tauto|discriminate]. }
    unfold fetch_page, try_catch, bind.
    destruct (db.getAllRestaurants E p pp bf w) as [[rs|e] w']; unfold ret.
    + unfold answers. cbn [fst]. split; [cbn; tauto|].
      split; [reflexivity|]. split; [discriminate|cbn; discriminate].
    + answered.
  - rewrite get_one_run. destruct (Re.test _ id).
    + destruct (db.getRestaurantById id w) as [[r|e] w']; answered.
    + answered.
  - rewrite post_one_run. destruct (router.body_missing b).
    + answered.
    + destruct (db.addNewRestaurant b w) as [[r|e] w']; [|answered].
      unfold answers. cbn [fst]. split; [cbn; tauto|].
      split; [reflexivity|]. split; [discriminate|cbn; discriminate].
  - rewrite put_one_run. destruct (Re.test _ id); [|answered].
    destruct (router.body_missing b); [answered|].
    destruct (db.updateRestaurantById b id w) as [[r|e] w']; [|answered].
    unfold answers. cbn [fst]. split; [cbn; tauto|].
    split; [reflexivity|]. split; [discriminate|cbn; discriminate].
  - rewrite delete_one_run. destruct (Re.test _ id); [|answered].
    destruct (db.deleteRestaurantById id w) as [[r|e] w']; [|answered].
    unfold answers. cbn [fst]. split; [cbn; tauto|].
    split; [reflexivity|]. split; [reflexivity|reflexivity].
Qed.

End Always.

(** ** What a request can change in the collection *)

Section Frame.








End Frame.

(** ** The stored documents satisfy the field rules *)

Section Validity.









End Validity.

(** ** Duplicates *)

Section Duplicates.

Lemma rethrown_by_add_plain (e : error) :
  e_name (rethrown_by_add e) = lit "Error" /\ e_code (rethrown_by_add e) = None.
Proof.
  unfold rethrown_by_add. destruct (Js.eqb _ _); [split; reflexivity|].
  destruct (db.code_is e 11000); split; reflexivity.
Qed.

(** Whatever makes [db.addNewRestaurant] fail, what it throws is a plain
    [Error] without a code. *)
Lemma addNewRestaurant_throws_plain (b : option body) (w w' : world) (e : error) :
  db.addNewRestaurant b w = (Throw e, w') ->
  e_name e = lit "Error" /\ e_code e = None.
Proof.
  destruct b as [d|].
  - rewrite addNewRestaurant_cases.
    destruct (Schema.validate (Schema.cast d)).
    + destruct (fault w) as [e0|].
      * intros H. injection H as <- _. apply rethrown_by_add_plain.
      * destruct (store w !! next_oid w); intros H; [|discriminate H].
        injection H as <- _. split; reflexivity.
    + intros H. injection H as <- _. split; reflexivity.
  - intros H. injection H as <- _. split; reflexivity.
Qed.

(** X9: the POST handler never answers "Restaurant with this information
    already exists": the repository rethrows every failure as a plain
    [Error] without a code, so the handler's test [error.code === 11000]
    never holds.  A duplicate-key failure of the driver on a valid record is
    answered 500. *)
Theorem post_never_reports_duplicate (E : env) (b : option body) (w : world) :
  match fst (router.post_one E b w) with
  | Return r =>
      response_field "message" r
      <> Some (JStr (lit "Restaurant with this information already exists"))
  | Throw _ => False
  end
  /\ (forall d e, b = Some d ->
        Schema.validate (Schema.cast d) = [] ->
        fault w = Some e ->
        db.code_is e 11000 = true ->
        Js.eqb (e_name e) (lit "ValidationError") = false ->
        fst (router.post_one E b w) =
        Return (server_error E (lit "Internal server error while creating restaurant")
                  (Error (lit "Duplicate restaurant data detected")))).
Proof.
  split.
  - rewrite post_one_run. destruct (router.body_missing b).
    { cbn. discriminate. }
    destruct (db.addNewRestaurant b w) as [[r|e] w'] eqn:H.
    { cbn. discriminate. }
    destruct (addNewRestaurant_throws_plain b w w' e H) as [_ Hcode].
    cbn [fst]. destruct (_ || _).
    { cbn. discriminate. }
    unfold db.code_is. rewrite Hcode. cbn. discriminate.
  - intros d e -> Hv Hf Hc Hn.
    rewrite post_one_run, (valid_not_missing d Hv), addNewRestaurant_cases, Hv, Hf.
    unfold rethrown_by_add. rewrite Hn, Hc. reflexivity.
Qed.

End Duplicates.

(** ** The soft delete of the service module *)

Section SoftDelete.




End SoftDelete.

(** ** The browse form *)

Section Browse.

Lemma page_errors_cases (max : Z) (p : Js.num) :
  (negb (browse.isInteger p) || Js.lt p (Js.Num 1) || Js.gt p (Js.Num max) = false
   <-> exists n, p = Js.Num n /\ 1 <= n <= max).
Proof.
  destruct p as [|n]; cbn.
  - split; [discriminate|]. intros (n & H & _). discriminate H.
  - destruct (Z.ltb_spec n 1), (Z.ltb_spec max n); cbn; split;
      try discriminate; try (intros (n' & H' & Hr); injection H' as <-; lia).
    intros _. exists n. split; [reflexivity|lia].
Qed.

Lemma page_errors_spec (p : Js.num) :
  (browse.page_errors p = [] <-> exists n, p = Js.Num n /\ 1 <= n <= 10000)
  /\ (browse.page_errors p = []
      \/ browse.page_errors p
         = [lit "Page must be a positive integer between 1 and 10000"]).
Proof.
  unfold browse.page_errors. rewrite <- page_errors_cases.
  destruct (_ || _); split; try tauto; split; congruence.
Qed.

Lemma perPage_errors_spec (p : Js.num) :
  (browse.perPage_errors p = [] <-> exists n, p = Js.Num n /\ 1 <= n <= 100)
  /\ (browse.perPage_errors p = []
      \/ browse.perPage_errors p
         = [lit "Per Page must be a positive integer between 1 and 100"]).
Proof.
  unfold browse.perPage_errors. rewrite <- page_errors_cases.
  destruct (_ || _); split; try tauto; split; congruence.
Qed.

Lemma allowed_star (s : jsstring) :
  Re.test browse.allowedBoroughRegex s = true
  <-> Forall (fun c => router.borough_char c = true) s.
Proof.
  unfold browse.allowedBoroughRegex.
  now rewrite test_Star_Cls, forallb_forall, List.Forall_forall.
Qed.

Lemma borough_check_spec (x : option qval) :
  (fst (browse.borough_check x) = [] <-> form_borough_ok x)
  /\ (fst (browse.borough_check x) = []
      \/ fst (browse.borough_check x)
         = [lit "Borough may only contain letters, spaces, hyphens, apostrophes and be at most 50 chars"])
  /\ (forall b, snd (browse.borough_check x) = Some b ->
        fst (browse.borough_check x) = []
        /\ b <> [] /\ (length b <= 50)%nat
        /\ Forall (fun c => router.borough_char c = true) b).
Proof.
  unfold browse.borough_check, form_borough_ok.
  destruct x as [[s|l|f]|]; cbn [fst snd];
    try (split; [tauto|split; [tauto|discriminate]]).
  destruct (Nat.ltb_spec 0 (length (Js.trim s))) as [Hpos|Hzero].
  - destruct (Nat.ltb_spec 50 (length (Js.trim s))) as [Hlong|Hshort]; cbn [orb].
    + cbn [fst snd]. split; [|split; [tauto|discriminate]].
      split; [discriminate|]. intros [H|[H _]]; [rewrite H in Hpos; cbn in Hpos|]; lia.
    + destruct (Re.test browse.allowedBoroughRegex (Js.trim s)) eqn:Hre;
        cbn [negb fst snd].
      * apply allowed_star in Hre. split; [tauto|]. split; [tauto|].
        intros b Hb. injection Hb as <-. repeat split; try assumption.
        intros H. rewrite H in Hpos. cbn in Hpos. lia.
      * split; [|split; [tauto|discriminate]].
        split; [discriminate|]. intros [H|[_ H]].
        -- rewrite H in Hpos. cbn in Hpos. lia.
        -- apply allowed_star in H. congruence.
  - cbn [fst snd]. split; [|split; [tauto|discriminate]].
    split; [|reflexivity]. intros _. left.
    destruct (Js.trim s); [reflexivity|cbn in Hzero; lia].
Qed.

Lemma browse_post_run (E : env) (f : browse.form) (w : world) :
  let pageNum := browse.parseField (browse.f_page f) in
  let perPageNum := browse.parseField (browse.f_perPage f) in
  let errors :=
    browse.page_errors pageNum ++ browse.perPage_errors perPageNum
    ++ fst (browse.borough_check (browse.f_borough f)) in
  let boroughFilter := snd (browse.borough_check (browse.f_borough f)) in
  browse.post E f w =
  match errors with
  | _ :: _ =>
      (Return {| browse.v_status := 400; browse.v_form := browse.Submitted f;
                 browse.v_result := None;
                 browse.v_error := Some (Js.join (lit ". ") errors) |}, w)
  | [] =>
      match db.getAllRestaurants E pageNum perPageNum boroughFilter w with
      | (Return rs, w') =>
          (Return {| browse.v_status := 200;
                     browse.v_form :=
                       browse.Normalized pageNum perPageNum
                         (browse.or_empty boroughFilter);
                     browse.v_result :=
                       Some {| browse.rows := rs;
                               browse.totalReturned := Js.Num (Z.of_nat (length rs));
                               browse.res_page := pageNum;
                               browse.res_perPage := perPageNum;
                               browse.hasMore :=
                                 Js.strict_eq (Js.Num (Z.of_nat (length rs))) perPageNum;
                               browse.res_borough := boroughFilter |};
                     browse.v_error := None |}, w')
      | (Throw _, w') =>
          (Return {| browse.v_status := 500; browse.v_form := browse.Submitted f;
                     browse.v_result := None;
                     browse.v_error :=
                       Some (lit "Internal server error. Please try again later.") |},
           w')
      end
  end.
Proof.
  intros pageNum perPageNum errors boroughFilter.
  unfold browse.post, try_catch. fold pageNum perPageNum. fold errors boroughFilter.
  destruct errors as [|x l]; cbn [length Nat.ltb Nat.leb].
  - unfold bind.
    destruct (db.getAllRestaurants E pageNum perPageNum boroughFilter w) as [[rs|e] w'];
      reflexivity.
  - reflexivity.
Qed.

(** X12: what the API list handler accepts, the browse form accepts, and
    with the same outcome.  For a query without unknown parameters whose
    page and perPage are present, and a form with the same three fields: if
    the API validates the query, both handlers make the same repository call;
    both answer 200 with the same rows, or both answer 500. *)
Theorem browse_accepts_what_api_accepts (E : env) (q : query) (f : browse.form)
  (w : world) (vp vpp : qval) (p pp : Js.num) (bf : option jsstring) :
  rest_keys router.allowedParams q = [] ->
  prop "page" q = Some vp ->
  prop "perPage" q = Some vpp ->
  browse.f_page f = Some vp ->
  browse.f_perPage f = Some vpp ->
  browse.f_borough f = prop "borough" q ->
  router.check_page (Some vp) = inr p ->
  router.check_perPage (Some vpp) = inr pp ->
  router.check_borough (prop "borough" q) = inr bf ->
  match db.getAllRestaurants E p pp bf w with
  | (Return rs, w') =>
      router.get_all E q w = (Return (router.list_envelope rs p pp bf), w')
      /\ exists v, browse.post E f w = (Return v, w')
           /\ browse.v_status v = 200
           /\ browse.v_error v = None
           /\ browse.v_form v = browse.Normalized p pp (browse.or_empty bf)
           /\ browse.v_result v =
              Some {| browse.rows := rs;
                      browse.totalReturned := Js.Num (Z.of_nat (length rs));
                      browse.res_page := p; browse.res_perPage := pp;
                      browse.hasMore := Js.strict_eq (Js.Num (Z.of_nat (length rs))) pp;
                      browse.res_borough := bf |}
  | (Throw e, w') =>
      router.get_all E q w =
        (Return (server_error E (lit "Internal server error while fetching restaurants")
                   e), w')
      /\ exists v, browse.post E f w = (Return v, w') /\ browse.v_status v = 500
  end.
Proof.
  intros Hextra Hqp Hqpp Hfp Hfpp Hfb Hp Hpp Hb.
  assert (Hapi : router.get_all E q w = fetch_page E p pp bf w).
  { rewrite get_all_steps, (check_extra_passes q Hextra), Hqp, Hqpp, Hp, Hpp, Hb.
    reflexivity. }
  pose proof (browse_post_run E f w) as Hrun. cbv zeta in Hrun.
  rewrite Hfp, Hfpp, Hfb in Hrun. cbn [browse.parseField] in Hrun.
  apply check_page_accepts in Hp. destruct Hp as [(_ & n & Hn & Hnr) Hpe].
  apply check_perPage_accepts in Hpp. destruct Hpp as [(_ & m & Hm & Hmr) Hppe].
  rewrite <- Hpe, <- Hppe in Hrun.
  assert (E1 : browse.page_errors p = []).
  { apply page_errors_spec. exists n. split; [congruence|assumption]. }
  assert (E2 : browse.perPage_errors pp = []).
  { apply perPage_errors_spec. exists m. split; [congruence|assumption]. }
  assert (E3 : browse.borough_check (prop "borough" q) = ([], bf)).
  { destruct (prop "borough" q) as [v|].
    - apply check_borough_accepts in Hb.
      destruct Hb as (s & -> & -> & Hne & Hlen & Hre).
      apply borough_re_spec in Hre. destruct Hre as [_ Hall].
      unfold browse.borough_check.
      destruct (Nat.ltb_spec 0 (length (Js.trim s))) as [_|H0];
        [|destruct (Js.trim s); [congruence|cbn in H0; lia]].
      destruct (Nat.ltb_spec 50 (length (Js.trim s))); [lia|].
      apply allowed_star in Hall. now rewrite Hall.
    - injection Hb as <-. reflexivity. }
  rewrite E1, E2, E3 in Hrun. cbn [app fst snd] in Hrun.
  rewrite Hapi. unfold fetch_page, try_catch, bind.
  destruct (db.getAllRestaurants E p pp bf w) as [[rs|e] w'].
  - split; [reflexivity|]. eexists. split; [exact Hrun|]. repeat split.
  - split; [reflexivity|]. eexists. split; [exact Hrun|]. reflexivity.
Qed.

Lemma browse_accepts_what_api_accepts_example :
  let q := [(lit "page", QStr (lit "1")); (lit "perPage", QStr (lit "5"));
            (lit "borough", QStr (lit "Manhattan"))] in
  let f := {| browse.f_page := Some (QStr (lit "1"));
              browse.f_perPage := Some (QStr (lit "5"));
              browse.f_borough := Some (QStr (lit "Manhattan")) |} in
  rest_keys router.allowedParams q = []
  /\ router.check_page (Some (QStr (lit "1"))) = inr (Js.Num 1)
  /\ router.check_perPage (Some (QStr (lit "5"))) = inr (Js.Num 5)
  /\ router.check_borough (prop "borough" q) = inr (Some (lit "Manhattan"))
  /\ exists rs w' v,
       router.get_all Sample.E q Sample.one
         = (Return (router.list_envelope rs (Js.Num 1) (Js.Num 5) (Some (lit "Manhattan"))),
            w')
       /\ browse.post Sample.E f Sample.one = (Return v, w')
       /\ browse.v_status v = 200.
Proof.
  intros q f.
  assert (H1 : rest_keys router.allowedParams q = []) by reflexivity.
  assert (H2 : router.check_page (Some (QStr (lit "1"))) = inr (Js.Num 1))
    by reflexivity.
  assert (H3 : router.check_perPage (Some (QStr (lit "5"))) = inr (Js.Num 5))
    by reflexivity.
  assert (H4 : router.check_borough (prop "borough" q) = inr (Some (lit "Manhattan")))
    by reflexivity.
  repeat (split; [assumption|]).
  pose proof (browse_accepts_what_api_accepts Sample.E q f Sample.one _ _ _ _ _
                H1 eq_refl eq_refl eq_refl eq_refl eq_refl H2 H3 H4) as H.
  destruct (db.getAllRestaurants Sample.E (Js.Num 1) (Js.Num 5)
              (Some (lit "Manhattan")) Sample.one) as [[rs|e] w'] eqn:Hdb.
  - destruct H as (Ha & v & Hb & Hs & _). exists rs, w', v. auto.
  - exfalso. vm_compute in Hdb. discriminate Hdb.
Defined.

End Browse.

(** ** The browse form: all the errors at once *)

Section BrowseErrors.



End BrowseErrors.

(** ** The arguments that reach the repository *)

Section ValidatedCalls.

Lemma getAllRestaurants_world (E : env) (p pp : Js.num) (b : option jsstring)
  (w : world) :
  snd (db.getAllRestaurants E p pp b w) = logged (Call_getAllRestaurants p pp b) w.
Proof. rewrite getAllRestaurants_cases. reflexivity. Qed.

(** X14: the list handler of the API and the browse form call the
    repository's paged find only with validated arguments: a page in
    [[1, 10000]], a perPage in [[1, 100]], and a filter that is absent or is
    a non-empty string of at most 50 letters, white space, hyphens and
    apostrophes.  Either no call is made, or exactly one, with such
    arguments. *)
Theorem paged_find_called_validated (E : env) (q : query) (f : browse.form)
  (w : world) :
  (calls (snd (router.get_all E q w)) = calls w
   \/ exists c, calls (snd (router.get_all E q w)) = c :: calls w /\ validated_call c)
  /\ (calls (snd (browse.post E f w)) = calls w
      \/ exists c, calls (snd (browse.post E f w)) = c :: calls w /\ validated_call c).
Proof.
  split.
  - rewrite get_all_steps.
    destruct (router.check_extra q) as [r|[]]; [now left|].
    destruct (router.check_page _) as [r|p] eqn:Hp; [now left|].
    destruct (router.check_perPage _) as [r|pp] eqn:Hpp; [now left|].
    destruct (router.check_borough _) as [r|bf] eqn:Hb; [now left|].
    right. exists (Call_getAllRestaurants p pp bf). split.
    + unfold fetch_page, try_catch, bind.
      pose proof (getAllRestaurants_world E p pp bf w) as Hw.
      destruct (db.getAllRestaurants E p pp bf w) as [[rs|e] w']; cbn [snd] in *;
        now rewrite Hw.
    + destruct (check_page_range _ _ Hp) as (n & -> & Hn).
      destruct (check_perPage_range _ _ Hpp) as (m & -> & Hm).
      cbn. split; [assumption|]. split; [assumption|].
      destruct bf as [b|]; [|exact I].
      destruct (check_borough_whitelist _ _ Hb) as [Hne Hall].
      split; [assumption|]. split; [|assumption].
      destruct (prop "borough" q) as [v|]; [|discriminate].
      apply check_borough_accepts in Hb. destruct Hb as (s & _ & Hs & _ & Hlen & _).
      now injection Hs as ->.
  - pose proof (browse_post_run E f w) as Hrun. cbv zeta in Hrun. rewrite Hrun.
    destruct (page_errors_spec (browse.parseField (browse.f_page f))) as [I1 _].
    destruct (perPage_errors_spec (browse.parseField (browse.f_perPage f))) as [I2 _].
    destruct (borough_check_spec (browse.f_borough f)) as (_ & _ & I3).
    destruct (_ ++ _) as [|x l] eqn:Herr; [|now left].
    apply app_eq_nil in Herr. destruct Herr as [H1 Herr].
    apply app_eq_nil in Herr. destruct Herr as [H2 H3].
    apply I1 in H1. destruct H1 as (n & Hn & Hnr).
    apply I2 in H2. destruct H2 as (m & Hm & Hmr).
    right. eexists. split.
    + pose proof (getAllRestaurants_world E
                    (browse.parseField (browse.f_page f))
                    (browse.parseField (browse.f_perPage f))
                    (snd (browse.borough_check (browse.f_borough f))) w) as Hw.
      destruct (db.getAllRestaurants _ _ _ _ w) as [[rs|e] w']; cbn [snd] in *;
        rewrite Hw; reflexivity.
    + rewrite Hn, Hm. cbn. split; [assumption|]. split; [assumption|].
      destruct (snd (browse.borough_check (browse.f_borough f))) as [b|] eqn:Hb;
        [|exact I].
      destruct (I3 b eq_refl) as (_ & Hne & Hlen & Hall). auto.
Qed.

End ValidatedCalls.

(** ** The accepted borough is in normal form *)

Section BoroughNormalForm.

Lemma trimStart_head (s : jsstring) :
  Js.trimStart s = [] \/ exists c t, Js.trimStart s = c :: t /\ Js.is_space c = false.
Proof.
  induction s as [|c s IH]; [now left|]. cbn [Js.trimStart].
  destruct (Js.is_space c) eqn:Hc; [exact IH|]. right. now exists c, s.
Qed.

Lemma trimStart_fixed (c : N) (t : jsstring) :
  Js.is_space c = false -> Js.trimStart (c :: t) = c :: t.
Proof. intros H. cbn [Js.trimStart]. now rewrite H. Qed.

Lemma trimStart_snoc (l : jsstring) (c : N) :
  Js.is_space c = false -> exists l', Js.trimStart (l ++ [c]) = l' ++ [c].
Proof.
  intros Hc. induction l as [|a l IH].
  - exists []. cbn. now rewrite Hc.
  - cbn [app Js.trimStart]. destruct (Js.is_space a); [exact IH|].
    now exists (a :: l).
Qed.

(** The ends of a trimmed string are not white space. *)
Lemma trim_ends (s : jsstring) :
  Js.trim s = []
  \/ exists c t d u,
       Js.trim s = c :: t /\ Js.trim s = u ++ [d]
       /\ Js.is_space c = false /\ Js.is_space d = false.
Proof.
  unfold Js.trim, Js.trimEnd.
  destruct (trimStart_head s) as [->|(c & t & -> & Hc)]; [now left|].
  right. cbn [rev].
  destruct (trimStart_snoc (rev t) c Hc) as [l' Hl'].
  destruct (trimStart_head (rev t ++ [c])) as [H0|(d & u & Hd & Hds)].
  { rewrite Hl' in H0. now destruct l'. }
  rewrite Hd. cbn [rev]. rewrite Hd in Hl'.
  exists c. destruct (rev u ++ [d]) as [|x y] eqn:Hx; [now destruct (rev u)|].
  assert (Hxc : x = c).
  { apply (f_equal (@rev N)) in Hl'. rewrite rev_app_distr in Hl'. cbn [rev app] in Hl'.
    rewrite Hx in Hl'. now injection Hl' as ->. }
  subst x. exists y, d, (rev u). auto.
Qed.

Lemma trim_fixed (b : jsstring) (c d : N) (t u : jsstring) :
  b = c :: t -> b = u ++ [d] ->
  Js.is_space c = false -> Js.is_space d = false ->
  Js.trim b = b.
Proof.
  intros Hc Hd Hsc Hsd. unfold Js.trim, Js.trimEnd.
  rewrite Hc at 1. rewrite (trimStart_fixed c t Hsc), <- Hc, Hd.
  rewrite rev_app_distr. cbn [rev app]. rewrite (trimStart_fixed d _ Hsd).
  cbn [rev]. now rewrite rev_involutive.
Qed.

(** X15: the filter that the list handler accepts is in normal form: it
    neither starts nor ends with white space, and, sent again as the
    borough, it is accepted unchanged. *)
Theorem accepted_borough_normal (s b : jsstring) :
  router.check_borough (Some (QStr s)) = inr (Some b) ->
  router.check_borough (Some (QStr b)) = inr (Some b)
  /\ (forall c t, b = c :: t -> Js.is_space c = false)
  /\ (forall u d, b = u ++ [d] -> Js.is_space d = false).
Proof.
  intros H. apply check_borough_accepts in H.
  destruct H as (s' & Hs & Hb & Hne & Hlen & Hre).
  injection Hs as <-. injection Hb as ->.
  destruct (trim_ends s) as [H0|(c & t & d & u & Hc & Hd & Hsc & Hsd)];
    [congruence|].
  assert (Hfix : Js.trim (Js.trim s) = Js.trim s) by (eapply trim_fixed; eassumption).
  split; [|split].
  - apply check_borough_accepts. exists (Js.trim s). rewrite Hfix. auto.
  - intros c' t' Hb. rewrite Hb in Hc. now injection Hc as -> _.
  - intros u' d' Hb. rewrite Hb in Hd. apply app_inj_tail in Hd.
    destruct Hd as [_ ->]. assumption.
Qed.

Lemma accepted_borough_normal_example :
  router.check_borough (Some (QStr (lit "  Staten Island ")))
    = inr (Some (lit "Staten Island"))
  /\ router.check_borough (Some (QStr (lit "Staten Island")))
     = inr (Some (lit "Staten Island")).
Proof.
  assert (H : router.check_borough (Some (QStr (lit "  Staten Island ")))
              = inr (Some (lit "Staten Island"))) by reflexivity.
  split; [exact H|].
  exact (proj1 (accepted_borough_normal _ _ H)).
Defined.

End BoroughNormalForm.

(** ** One message for each violated field *)

Section OnePerPath.



Lemma includes_trans (a b c : jsstring) :
  Js.includes a b = true -> Js.includes b c = true -> Js.includes a c = true.
Proof.
  rewrite !includes_spec. intros (x & y & ->) (u & v & ->).
  exists (x ++ u), (v ++ y). now rewrite <- !app_assoc.
Qed.


End OnePerPath.

(** ** A validation message that reads "not found" *)

Section NotFoundText.

(** X17: the update handler looks for "not found" before anything else.  A
    PUT whose body violates a rule with a message that contains "not found"
    (a cuisine of "not found", say, which the message quotes) is answered 404
    "Restaurant with ID ... not found", whether or not the restaurant is
    stored, and nothing is changed. *)
Theorem put_404_on_validation_text (E : env) (d : body) (id : jsstring) (w : world)
  (pth : string) (msg : jsstring) :
  Re.test Restaurant.oid_re id = true ->
  router.body_missing (Some d) = false ->
  In (pth, msg) (Schema.validate (Schema.cast d)) ->
  Js.includes msg (lit "not found") = true ->
  router.put_one E id (Some d) w =
  (Return (router.not_found id), logged (Call_updateRestaurantById (Some d) id) w).
Proof.
  intros Hre Hb Hin Hmsg.
  assert (Hne : Schema.validate (Schema.cast d) <> []).
  { intros H0. rewrite H0 in Hin. destruct Hin. }
  rewrite put_one_run, Hre, Hb, (updateRestaurantById_aggregates d id w Hre Hne).
  unfold router.message_includes. cbn [e_message Error].
  rewrite (includes_trans _ msg _ (aggregate_names_each _ pth msg Hin) Hmsg).
  reflexivity.
Qed.

Lemma put_404_on_validation_text_example :
  let d := Sample.with_cuisine (Some (lit "not found")) Sample.record in
  Re.test Restaurant.oid_re Sample.id = true
  /\ router.body_missing (Some d) = false
  /\ In ("cuisine", lit "`not found` is not a valid enum value for path `cuisine`.")
       (Schema.validate (Schema.cast d))
  /\ Js.includes (lit "`not found` is not a valid enum value for path `cuisine`.")
       (lit "not found") = true
  /\ is_Some (store Sample.one !! Restaurant.hex_value Sample.id)
  /\ router.put_one Sample.E Sample.id (Some d) Sample.one =
     (Return (router.not_found Sample.id),
      logged (Call_updateRestaurantById (Some d) Sample.id) Sample.one).
Proof.
  intros d.
  assert (H1 : Re.test Restaurant.oid_re Sample.id = true) by reflexivity.
  assert (H2 : router.body_missing (Some d) = false) by reflexivity.
  assert (H3 : In ("cuisine",
                   lit "`not found` is not a valid enum value for path `cuisine`.")
                 (Schema.validate (Schema.cast d))) by (vm_compute; left; reflexivity).
  assert (H4 : Js.includes
                 (lit "`not found` is not a valid enum value for path `cuisine`.")
                 (lit "not found") = true) by (vm_compute; reflexivity).
  repeat (split; [assumption|]). split; [eexists; reflexivity|].
  exact (put_404_on_validation_text Sample.E d Sample.id Sample.one _ _ H1 H2 H3 H4).
Defined.

End NotFoundText.

(** ** The pages partition the matches *)

Section Partition.




End Partition.

(** ** Operations composed *)

Section Composition.





End Composition.

(** ** The browse form is more lenient than the API *)

Section Lenient.

Lemma digits_app (ds rest : jsstring) (acc : Z) :
  forallb Js.is_digit ds = true ->
  Js.digits acc (ds ++ rest) = Js.digits (Js.digits acc ds) rest.
Proof.
  revert acc; induction ds as [|d ds IH]; intros acc H; [reflexivity|].
  cbn [forallb] in H. apply andb_true_iff in H. destruct H as [Hd Hds].
  cbn [app Js.digits]. rewrite Hd. now apply IH.
Qed.

Lemma digits_stop (acc : Z) (c : N) (junk : jsstring) :
  Js.is_digit c = false -> Js.digits acc (c :: junk) = acc.
Proof. intros H. cbn [Js.digits]. now rewrite H. Qed.

(** X21: the browse form reads a number as [parseInt] does, by its leading
    digits, where the API wants digits only; and it ignores a borough that is
    not a string or is blank, where the API refuses it.  A value made of
    digits followed by something else is a valid page or perPage for the form
    when the digits are in range, and is refused by the API. *)
Theorem browse_reads_leading_digits (ds junk : jsstring) (c : N) :
  Re.test router.digits_re ds = true ->
  Js.is_digit c = false ->
  let raw := Some (QStr (ds ++ c :: junk)) in
  browse.parseField raw = Js.Num (Js.digits 0 ds)
  /\ (1 <= Js.digits 0 ds <= 10000 -> browse.page_errors (browse.parseField raw) = [])
  /\ (1 <= Js.digits 0 ds <= 100 -> browse.perPage_errors (browse.parseField raw) = [])
  /\ router.check_page raw
     = inl (failure 400 (lit "Page parameter must be a positive integer"))
  /\ router.check_perPage raw
     = inl (failure 400 (lit "perPage parameter must be a positive integer"))
  /\ (forall v, (forall s, v <> QStr s) ->
        browse.borough_check (Some v) = ([], None)
        /\ router.check_borough (Some v)
           = inl (failure 400 (lit "Borough parameter must be a string")))
  /\ (forall s, Js.trim s = [] ->
        browse.borough_check (Some (QStr s)) = ([], None)
        /\ router.check_borough (Some (QStr s))
           = inl (failure 400 (lit "Borough parameter cannot be empty"))).
Proof.
  intros Hre Hc raw.
  pose proof Hre as Hds. unfold router.digits_re in Hds. rewrite test_Plus_Cls in Hds.
  apply andb_true_iff in Hds. destruct Hds as [Hne Hall].
  destruct ds as [|d ds]; [discriminate Hne|].
  pose proof Hall as Hall'. cbn [forallb] in Hall'. apply andb_true_iff in Hall'.
  destruct Hall' as [Hd _].
  assert (Hparse : browse.parseField raw = Js.Num (Js.digits 0 (d :: ds))).
  { unfold raw, browse.parseField. cbn [toString]. unfold Js.parseInt10.
    cbn [app Js.trimStart]. rewrite (digit_not_space d Hd).
    destruct (digit_not_sign d Hd) as [-> ->]. rewrite Hd.
    change (d :: ds ++ c :: junk) with ((d :: ds) ++ c :: junk).
    rewrite (digits_app (d :: ds) (c :: junk) 0 Hall).
    rewrite (digits_stop _ c junk Hc). f_equal. lia. }
  assert (Hno : Re.test router.digits_re ((d :: ds) ++ c :: junk) = false).
  { unfold router.digits_re. rewrite test_Plus_Cls, forallb_app.
    cbn [forallb]. rewrite Hc. cbn. now rewrite !andb_false_r. }
  split; [exact Hparse|]. split.
  { intros Hr. rewrite Hparse. apply page_errors_spec. eauto. }
  split.
  { intros Hr. rewrite Hparse. apply perPage_errors_spec. eauto. }
  split.
  { unfold raw, router.check_page. cbn [toString]. now rewrite Hno. }
  split.
  { unfold raw, router.check_perPage. cbn [toString]. now rewrite Hno. }
  split.
  { intros v Hv. destruct v as [s|l|f]; [now destruct (Hv s)|split; reflexivity..]. }
  intros s Hs. unfold browse.borough_check, router.check_borough. rewrite Hs.
  split; reflexivity.
Qed.

Lemma browse_reads_leading_digits_example :
  Re.test router.digits_re (lit "5") = true
  /\ Js.is_digit 97 = false
  /\ browse.parseField (Some (QStr (lit "5abc"))) = Js.Num 5
  /\ router.check_page (Some (QStr (lit "5abc")))
     = inl (failure 400 (lit "Page parameter must be a positive integer")).
Proof.
  assert (H1 : Re.test router.digits_re (lit "5") = true) by reflexivity.
  assert (H2 : Js.is_digit 97 = false) by reflexivity.
  split; [exact H1|]. split; [exact H2|].
  destruct (browse_reads_leading_digits (lit "5") (lit "bc") 97 H1 H2)
    as (Ha & _ & _ & Hb & _).
  split; [exact Ha|exact Hb].
Defined.

End Lenient.
